(** * Smart inverter dashboard: shallow embedding and verified properties

    The development follows [inverter_api.py] (acquisition, storage, battery
    counter, relay control) and [daily_analyzer.py] (daily analysis).

    Modelling conventions.
    - Python floats and SQLite REAL columns are exact rationals ([Q]); a value
      that may be [None]/NULL is an [option Q].
    - A sample timestamp (the text "YYYY-MM-DD HH:MM:SS", fixed width, so that
      text order is chronological order) is the number of seconds since
      midnight of a reference day, a [Z]; a [datetime] value is a number of
      microseconds, also a [Z].
    - SQL tables with a key (samples: unique timestamp, archive: primary key
      day) are finite maps from the key to the row; the battery counter table
      is the list of its rows in insertion order.
    - Module-level globals (relay state, GPIO context) are threaded as explicit
      state; clock readings are inputs of the functions that read the clock. *)

From Stdlib Require Import ZArith QArith Qabs Qround Lia Lqa List Bool.
From Stdlib Require Reals Qreals Lra.
From stdpp Require Import base strings list gmap sorting.
Import ListNotations.
Local Open Scope Z_scope.

(** ** Comparisons on rationals, as booleans *)

Definition Qltb (a b : Q) : bool := negb (Qle_bool b a).
Definition Qgeb (a b : Q) : bool := Qle_bool b a.

(** Python's [bool(x)] on [None | True | False]. *)
Definition py_bool (o : option bool) : bool :=
  match o with Some b => b | None => false end.

Definition opt_bool_eqb (a b : option bool) : bool :=
  match a, b with
  | None, None => true
  | Some x, Some y => Bool.eqb x y
  | _, _ => false
  end.

(** ** ADS1115 conversion register ([i2c_read_all], ads1115 branch) *)

Module Ads1115.

(** [raw = (int(data[0]) << 8) | int(data[1])] *)
Definition raw_of_bytes (d0 d1 : Z) : Z := Z.lor (Z.shiftl d0 8) d1.

(** [if raw > 32767: raw -= 65535] *)
Definition sign_correct (raw : Z) : Z :=
  if raw >? 32767 then raw - 65535 else raw.

(** [_to_signed16], the correction used for the field-bus registers. *)
Definition _to_signed16 (x : Z) : Z :=
  if x >=? 0x8000 then x - 0x10000 else x.

End Ads1115.

(** ** Relay control *)

Module Relay.

Inductive backend := rpi | lgpio.

(** The GPIO layer: the backend chosen at import time, whether driver calls
    raise, the lgpio chip handle and the physical level of the relay line. *)
Record Gpio := {
  GPIO_BACKEND : option backend;
  gpio_fault : bool;
  lgpio_h : bool;
  level : bool
}.

(** [CONF["relay"]]; [mode_gpio] is [str(cfg.get("mode","gpio")).lower() == "gpio"],
    [min_toggle_sec] is the value as read through [int(...)]. *)
Record RelayCfg := {
  mode_gpio : bool;
  enabled : bool;
  gpio_pin : Z;
  active_high : bool;
  on_v : Q;
  off_v : Q;
  min_toggle_sec : Z
}.

(** The globals [RELAY_STATE] (None = unknown) and [RELAY_LAST_TOGGLE]. *)
Record RelayGlobals := {
  RELAY_STATE : option bool;
  RELAY_LAST_TOGGLE : Q
}.

(** Values of the globals when the module is loaded. *)
Definition initial_globals : RelayGlobals :=
  {| RELAY_STATE := None; RELAY_LAST_TOGGLE := 0 |}.

Definition World : Type := Gpio * RelayGlobals.

Definition set_level (g : Gpio) (h lv : bool) : Gpio :=
  {| GPIO_BACKEND := GPIO_BACKEND g; gpio_fault := gpio_fault g;
     lgpio_h := h; level := lv |}.

Definition _gpio_setup_output (pin : Z) (initial_high : bool) (g : Gpio) : bool * Gpio :=
  match GPIO_BACKEND g with
  | Some rpi =>
      if gpio_fault g then (false, g) else (true, set_level g (lgpio_h g) initial_high)
  | Some lgpio =>
      if gpio_fault g then (false, g) else (true, set_level g true initial_high)
  | None => (false, g)
  end.

Definition _gpio_write (pin : Z) (level_high : bool) (g : Gpio) : bool * Gpio :=
  match GPIO_BACKEND g with
  | Some rpi =>
      if gpio_fault g then (false, g) else (true, set_level g (lgpio_h g) level_high)
  | Some lgpio =>
      if lgpio_h g then
        if gpio_fault g then (false, g) else (true, set_level g true level_high)
      else
        let '(ok, g1) := _gpio_setup_output pin level_high g in
        if ok then (true, set_level g1 true level_high) else (false, g1)
  | None => (false, g)
  end.

Definition _gpio_read (pin : Z) (g : Gpio) : option Z :=
  match GPIO_BACKEND g with
  | Some rpi => if gpio_fault g then None else Some (if level g then 1 else 0)
  | Some lgpio =>
      if lgpio_h g then
        if gpio_fault g then None else Some (if level g then 1 else 0)
      else None
  | None => None
  end.

(** [relay_apply(hw_on)]; [t] is the reading of [time.monotonic()]. *)
Definition relay_apply (cfg : RelayCfg) (hw_on : bool) (t : Q) (w : World) : World :=
  let level_high := if active_high cfg then hw_on else negb hw_on in
  let g :=
    match GPIO_BACKEND (fst w) with
    | Some _ =>
        if mode_gpio cfg then snd (_gpio_write (gpio_pin cfg) level_high (fst w))
        else fst w
    | None => fst w
    end in
  (g, {| RELAY_STATE := Some hw_on; RELAY_LAST_TOGGLE := t |}).

(** [relay_setup()]; [t] is the reading of [time.monotonic()]. *)
Definition relay_setup (cfg : RelayCfg) (t : Q) (w : World) : World :=
  match GPIO_BACKEND (fst w) with
  | None => w
  | Some _ =>
      if negb (mode_gpio cfg) then w
      else
        let off_level_high := if active_high cfg then false else true in
        let g := snd (_gpio_setup_output (gpio_pin cfg) off_level_high (fst w)) in
        (g, {| RELAY_STATE := Some false; RELAY_LAST_TOGGLE := t |})
  end.

(** [relay_auto_step(batt_v)]. [now] is the clock reading taken by the step
    itself and [t_apply] the later reading taken inside [relay_apply]. The
    Python function returns nothing; the second component reports the call
    [relay_apply(bool(want))], when it is made. *)
Definition relay_auto_step (cfg : RelayCfg) (batt_v : option Q) (now t_apply : Q)
    (w : World) : World * option bool :=
  if negb (enabled cfg) then (w, None)
  else
    match batt_v with
    | None => (w, None)
    | Some v =>
        let min_gap := Z.max 0 (min_toggle_sec cfg) in
        let cur := RELAY_STATE (snd w) in
        let want : option (option bool) :=
          match cur with
          | None =>
              if Qle_bool v (on_v cfg) then Some (Some true)
              else if Qgeb v (off_v cfg) then Some (Some false)
              else None
          | Some c =>
              if negb c && Qle_bool v (on_v cfg) then Some (Some true)
              else if c && Qgeb v (off_v cfg) then Some (Some false)
              else Some cur
          end in
        match want with
        | None => (w, None)
        | Some want =>
            if negb (opt_bool_eqb want cur)
               && Qgeb (now - RELAY_LAST_TOGGLE (snd w)) (inject_Z min_gap)
            then (relay_apply cfg (py_bool want) t_apply w, Some (py_bool want))
            else (w, None)
        end
    end.

(** One acquisition cycle as seen by the relay: the battery voltage of the
    sample and the two clock readings. *)
Record Tick := { tick_v : option Q; tick_now : Q; tick_apply : Q }.

(** The controller run over a trajectory; the result carries the log of the
    applied transitions, each with the value written to [RELAY_LAST_TOGGLE]. *)
Fixpoint run (cfg : RelayCfg) (ticks : list Tick) (w : World) : World * list (Q * bool) :=
  match ticks with
  | [] => (w, [])
  | k :: rest =>
      let '(w1, applied) := relay_auto_step cfg (tick_v k) (tick_now k) (tick_apply k) w in
      let '(w2, log) := run cfg rest w1 in
      (w2, match applied with
           | Some b => (tick_apply k, b) :: log
           | None => log
           end)
  end.

(** Within one step the clock does not run backwards. *)
Definition clock_ok (ticks : list Tick) : Prop :=
  Forall (fun k => (tick_now k <= tick_apply k)%Q) ticks.

(** A board without any GPIO library, and one driven through RPi.GPIO whose
    line is currently high. *)
Definition no_gpio : Gpio :=
  {| GPIO_BACKEND := None; gpio_fault := false; lgpio_h := false; level := true |}.

Definition rpi_gpio : Gpio :=
  {| GPIO_BACKEND := Some rpi; gpio_fault := false; lgpio_h := false; level := true |}.

(** The relay section installed by [CONF.setdefault("relay", ...)], enabled. *)
Definition default_cfg : RelayCfg :=
  {| mode_gpio := true; enabled := true; gpio_pin := 17; active_high := true;
     on_v := 47.5; off_v := 49.0; min_toggle_sec := 5 |}.

(** Every time of the list comes at least [gap] after the one before it, the
    first one at least [gap] after [prev]. *)
Fixpoint spaced (gap prev : Q) (times : list Q) : Prop :=
  match times with
  | [] => True
  | t :: rest => (gap <= t - prev)%Q /\ spaced gap t rest
  end.

(** A trajectory that swings across the hysteresis band every second. *)
Definition chatter_ticks : list Tick :=
  [ {| tick_v := Some 47.0%Q; tick_now := 10; tick_apply := 10.001 |};
    {| tick_v := Some 49.5%Q; tick_now := 11; tick_apply := 11.001 |};
    {| tick_v := Some 47.0%Q; tick_now := 12; tick_apply := 12.001 |};
    {| tick_v := Some 49.5%Q; tick_now := 16; tick_apply := 16.001 |};
    {| tick_v := Some 47.0%Q; tick_now := 17; tick_apply := 17.001 |};
    {| tick_v := Some 47.0%Q; tick_now := 21.5; tick_apply := 21.501 |} ].

End Relay.

(** ** Samples *)

(** One row of the [samples] table, which is also the dictionary handled by
    the analyzer ([SELECT *]); the autoincrement [id] is never read. An
    interval average produced by [_average_samples] is a [Sample] whose
    absent keys are [None]. *)
Record Sample := {
  timestamp : Z;
  pv_w : option Q; pv_v : option Q; pv_a : option Q;
  battery_w : option Q; battery_v : option Q; battery_a : option Q;
  grid_w : option Q; grid_v : option Q; grid_hz : option Q; grid_a : option Q;
  load_w : option Q; load_v : option Q; load_hz : option Q; load_a : option Q;
  load_va : option Q; load_pf : option Q; load_percent : option Q;
  dc_temp : option Q; inverter_temp : option Q; heatsink_temp : option Q;
  dc_bus_v : option Q
}.

(** A sample that carries only the four power channels and the battery
    voltage (all other columns NULL). *)
Definition power_sample (ts : Z) (pv batt_w batt_v grid load : option Q) : Sample :=
  {| timestamp := ts;
     pv_w := pv; pv_v := None; pv_a := None;
     battery_w := batt_w; battery_v := batt_v; battery_a := None;
     grid_w := grid; grid_v := None; grid_hz := None; grid_a := None;
     load_w := load; load_v := None; load_hz := None; load_a := None;
     load_va := None; load_pf := None; load_percent := None;
     dc_temp := None; inverter_temp := None; heatsink_temp := None;
     dc_bus_v := None |}.

(** Calendar parts of a timestamp. *)
Definition ts_date (ts : Z) : Z := ts / 86400.
Definition ts_hour (ts : Z) : Z := (ts mod 86400) / 3600.
Definition ts_minute (ts : Z) : Z := (ts mod 3600) / 60.

(** ** Time-series store: [samples] and [archive] tables *)

Module Store.

(** One row of [archive], without its key [day]. *)
Record ArchiveRow := {
  pv_Wh : option Q;
  load_Wh : option Q;
  grid_Wh : option Q;
  batt_in_Wh : option Q;
  batt_out_Wh : option Q
}.

Record DB := {
  samples : gmap Z Sample;
  archive : gmap Z ArchiveRow
}.

(** [INSERT OR IGNORE INTO samples(...)] under the unique index [uniq_ts]. *)
Definition insert_sample (s : Sample) (tbl : gmap Z Sample) : gmap Z Sample :=
  match tbl !! timestamp s with
  | Some _ => tbl
  | None => <[timestamp s := s]> tbl
  end.

(** The part of [poll_loop] that writes the acquired sample. *)
Definition poll_store (s : Sample) (d : DB) : DB :=
  {| samples := insert_sample s (samples d); archive := archive d |}.

(** SQL aggregates: NULLs are skipped, an empty group yields NULL. *)
Definition non_null (l : list (option Q)) : list Q := omap id l.

Definition sql_sum (l : list (option Q)) : option Q :=
  match non_null l with
  | [] => None
  | vs => Some (fold_left Qplus vs 0%Q)
  end.

Definition sql_avg (l : list (option Q)) : option Q :=
  match non_null l with
  | [] => None
  | vs => Some (fold_left Qplus vs 0%Q / inject_Z (Z.of_nat (length vs)))%Q
  end.

(** [x / 60.0] on a nullable value. *)
Definition div60 (x : option Q) : option Q :=
  match x with Some v => Some (v / 60)%Q | None => None end.

(** [GROUP BY]: the rows of each key, in their order of arrival. *)
Definition group_by {A : Type} (key : A -> Z) (l : list A) : gmap Z (list A) :=
  foldr (fun x m => <[key x := x :: default [] (m !! key x)]> m) ∅ l.

(** [WHERE timestamp < ?] *)
Definition older_than (cutoff : Z) (tbl : gmap Z Sample) : gmap Z Sample :=
  filter (fun kv => fst kv < cutoff) tbl.

(** [DELETE FROM samples WHERE timestamp < ?] *)
Definition delete_older (cutoff : Z) (tbl : gmap Z Sample) : gmap Z Sample :=
  filter (fun kv => ~ fst kv < cutoff) tbl.

(** The common table expression [m]: one row per minute, [ts_min] being the
    timestamp truncated to the minute, with the averages of that minute. *)
Record MinuteRow := {
  ts_min : Z;
  m_pv_w : option Q;
  m_battery_w : option Q;
  m_load_w : option Q;
  m_grid_w : option Q
}.

Definition minute_rows (cutoff : Z) (tbl : gmap Z Sample) : list MinuteRow :=
  let rows := snd <$> map_to_list (older_than cutoff tbl) in
  let groups := group_by (fun s => timestamp s / 60 * 60) rows in
  (fun kg : Z * list Sample =>
     {| ts_min := fst kg;
        m_pv_w := sql_avg (pv_w <$> snd kg);
        m_battery_w := sql_avg (battery_w <$> snd kg);
        m_load_w := sql_avg (load_w <$> snd kg);
        m_grid_w := sql_avg (grid_w <$> snd kg) |}) <$> map_to_list groups.

(** [CASE WHEN battery_w>0 THEN battery_w ELSE 0 END] and its mirror. *)
Definition charge_part (x : option Q) : option Q :=
  match x with
  | Some v => if Qltb 0 v then Some v else Some 0%Q
  | None => Some 0%Q
  end.

Definition discharge_part (x : option Q) : option Q :=
  match x with
  | Some v => if Qltb v 0 then Some (- v)%Q else Some 0%Q
  | None => Some 0%Q
  end.

Definition day_le (a b : Z * ArchiveRow) : Prop := fst a <= fst b.

#[global] Instance day_le_dec (a b : Z * ArchiveRow) : Decision (day_le a b) :=
  Z_le_dec (fst a) (fst b).

(** The archive query: one row per day, [ORDER BY day ASC]. *)
Definition archive_query (cutoff : Z) (tbl : gmap Z Sample) : list (Z * ArchiveRow) :=
  let days := group_by (fun m => ts_date (ts_min m)) (minute_rows cutoff tbl) in
  merge_sort day_le
    ((fun dg : Z * list MinuteRow =>
        (fst dg,
         {| pv_Wh := div60 (sql_sum (m_pv_w <$> snd dg));
            load_Wh := div60 (sql_sum (m_load_w <$> snd dg));
            grid_Wh := div60 (sql_sum (m_grid_w <$> snd dg));
            batt_in_Wh := div60 (sql_sum (charge_part ∘ m_battery_w <$> snd dg));
            batt_out_Wh := div60 (sql_sum (discharge_part ∘ m_battery_w <$> snd dg)) |}))
       <$> map_to_list days).

(** [INSERT OR REPLACE INTO archive] for each row of the query. *)
Definition upsert_all (rows : list (Z * ArchiveRow)) (a : gmap Z ArchiveRow)
    : gmap Z ArchiveRow :=
  fold_left (fun acc r => <[fst r := snd r]> acc) rows a.

(** The body of [db_archive_and_trim] once the cutoff is known. *)
Definition archive_and_trim_at (cutoff : Z) (d : DB) : DB :=
  {| samples := delete_older cutoff (samples d);
     archive := upsert_all (archive_query cutoff (samples d)) (archive d) |}.

(** [(datetime.now() - timedelta(days=days)).strftime("%Y-%m-%d 00:00:00")],
    [now] in seconds. *)
Definition cutoff_of (now days : Z) : Z := (now - days * 86400) / 86400 * 86400.

Definition db_archive_and_trim (now days : Z) (d : DB) : DB :=
  archive_and_trim_at (cutoff_of now days) d.

(** The summary returned by [_archive_compute_and_apply]. *)
Record Summary := { minutes_to_delete : Z; days_to_archive : Z }.

Definition _archive_compute_and_apply (cutoff : Z) (apply : bool) (d : DB) : Summary * DB :=
  let cnt := Z.of_nat (size (older_than cutoff (samples d))) in
  let rows := archive_query cutoff (samples d) in
  let summary := {| minutes_to_delete := cnt; days_to_archive := Z.of_nat (length rows) |} in
  if apply && negb (bool_decide (rows = [])) then
    (summary, {| samples := delete_older cutoff (samples d);
                 archive := upsert_all rows (archive d) |})
  else (summary, d).

(** A small store: three samples on two past days, one recent sample. *)
Definition archive_demo : DB :=
  {| samples :=
       insert_sample (power_sample 100 (Some 50%Q) (Some 20%Q) None None (Some 30%Q))
         (insert_sample (power_sample 130 (Some 70%Q) (Some (-40)%Q) None None None)
            (insert_sample (power_sample 90000 (Some 10%Q) None None None None)
               (insert_sample (power_sample 2900000 (Some 5%Q) None None None None) ∅)));
     archive := ∅ |}.

End Store.

(** ** Battery energy counter: [battery_counters] table *)

Module Battery.

(** The text stored in [reset_reason]: a caller-supplied reason, or the
    formatted text [battery_{thr:.1f}v_discharge_{v:.1f}V] of an automatic
    reset, kept here as the two numbers it is formatted from. *)
Inductive Reason :=
  | reason_text (s : string)
  | reason_auto (reset_thr battery_v : Q).

Inductive CounterType := daily_net | other_type (s : string).

Definition is_daily_net (t : CounterType) : bool :=
  match t with daily_net => true | other_type _ => false end.

Record Counter := {
  id : Z;
  counter_type : CounterType;
  start_timestamp : Z;
  start_battery_v : Q;
  total_batt_in_Wh : Q;
  total_batt_out_Wh : Q;
  total_batt_net_Wh : Q;
  reset_reason : option Reason;
  created_at : Z
}.

(** Rows in insertion order, oldest first. *)
Definition Table := list Counter.

(** [AUTOINCREMENT]: one more than the largest id in use (rows are never
    deleted from this table). *)
Definition next_id (tbl : Table) : Z :=
  1 + fold_right (fun c acc => Z.max (id c) acc) 0 tbl.

(** [INSERT INTO battery_counters (counter_type, start_timestamp,
    start_battery_v, created_at) VALUES ('daily_net', now, 0.0, now)]; the
    totals take their column default 0.0 and [reset_reason] is NULL. *)
Definition fresh_counter (new_id now : Z) : Counter :=
  {| id := new_id; counter_type := daily_net;
     start_timestamp := now; start_battery_v := 0;
     total_batt_in_Wh := 0; total_batt_out_Wh := 0; total_batt_net_Wh := 0;
     reset_reason := None; created_at := now |}.

Definition insert_counter (now : Z) (tbl : Table) : Z * Table :=
  let new_id := next_id tbl in
  (new_id, tbl ++ [fresh_counter new_id now]).

(** [SELECT ... WHERE counter_type = 'daily_net' ORDER BY start_timestamp
    DESC LIMIT 1]. The rows of the type are found through the index on
    [counter_type], that is in the order of their ids, and then sorted; among
    rows with equal [start_timestamp] SQLite returns the one it met first, the
    one inserted first. *)
Fixpoint latest_of (rows : list Counter) : option Counter :=
  match rows with
  | [] => None
  | c :: rest =>
      match latest_of rest with
      | Some d => if start_timestamp c <? start_timestamp d then Some d else Some c
      | None => Some c
      end
  end.

Definition latest_counter (tbl : Table) : option Counter :=
  latest_of (List.filter (fun c => is_daily_net (counter_type c)) tbl).

(** [get_current_battery_counter()]: the latest counter, or a new one when
    the table has none; [now] is [now_str()]. The dictionary returned for a
    new counter carries the reason text "initial", the stored row has NULL. *)
Definition get_current_battery_counter (now : Z) (tbl : Table) : Counter * Table :=
  match latest_counter tbl with
  | Some row => (row, tbl)
  | None =>
      let '(new_id, tbl1) := insert_counter now tbl in
      ({| id := new_id; counter_type := daily_net;
          start_timestamp := now; start_battery_v := 0;
          total_batt_in_Wh := 0; total_batt_out_Wh := 0; total_batt_net_Wh := 0;
          reset_reason := Some (reason_text "initial"); created_at := now |},
       tbl1)
  end.

(** [reset_battery_counter(reason)]: close the open rows, open a new one;
    returns [cursor.lastrowid]. *)
Definition close_row (reason : Reason) (c : Counter) : Counter :=
  if is_daily_net (counter_type c) && negb (bool_decide (is_Some (reset_reason c)))
  then {| id := id c; counter_type := counter_type c;
          start_timestamp := start_timestamp c; start_battery_v := start_battery_v c;
          total_batt_in_Wh := total_batt_in_Wh c;
          total_batt_out_Wh := total_batt_out_Wh c;
          total_batt_net_Wh := total_batt_net_Wh c;
          reset_reason := Some reason; created_at := created_at c |}
  else c.

Definition reset_battery_counter (reason : Reason) (now : Z) (tbl : Table) : Z * Table :=
  insert_counter now (List.map (close_row reason) tbl).

(** The two [UPDATE battery_counters SET ... WHERE id = ?] statements; every
    right-hand side reads the row as it was before the statement. *)
Definition charge_row (energy_wh : Q) (c : Counter) : Counter :=
  {| id := id c; counter_type := counter_type c;
     start_timestamp := start_timestamp c; start_battery_v := start_battery_v c;
     total_batt_in_Wh := (total_batt_in_Wh c + energy_wh)%Q;
     total_batt_out_Wh := total_batt_out_Wh c;
     total_batt_net_Wh := (total_batt_in_Wh c + energy_wh - total_batt_out_Wh c)%Q;
     reset_reason := reset_reason c; created_at := created_at c |}.

Definition discharge_row (energy_wh : Q) (c : Counter) : Counter :=
  {| id := id c; counter_type := counter_type c;
     start_timestamp := start_timestamp c; start_battery_v := start_battery_v c;
     total_batt_in_Wh := total_batt_in_Wh c;
     total_batt_out_Wh := (total_batt_out_Wh c + energy_wh)%Q;
     total_batt_net_Wh := (total_batt_in_Wh c - (total_batt_out_Wh c + energy_wh))%Q;
     reset_reason := reset_reason c; created_at := created_at c |}.

Definition update_where_id (cid : Z) (f : Counter -> Counter) (tbl : Table) : Table :=
  List.map (fun c => if id c =? cid then f c else c) tbl.

(** [energy_wh = (float(battery_w) * POLL_S) / 3600.0] *)
Definition energy_wh (POLL_S battery_w : Q) : Q := (battery_w * POLL_S / 3600)%Q.

(** [update_battery_counter(battery_w, battery_v)] *)
Definition update_battery_counter (POLL_S : Q) (now : Z)
    (battery_w battery_v : option Q) (tbl : Table) : Table :=
  match battery_w, battery_v with
  | Some w, Some _ =>
      let '(counter, tbl1) := get_current_battery_counter now tbl in
      let e := energy_wh POLL_S w in
      if Qltb 0 w then update_where_id (id counter) (charge_row e) tbl1
      else if Qltb w 0 then update_where_id (id counter) (discharge_row (Qabs e)) tbl1
      else tbl1
  | _, _ => tbl
  end.

(** [DEFAULT_NET_RESET_V] *)
Definition DEFAULT_NET_RESET_V : Q := 46.0.

(** [float(_get("battery.net_reset_voltage", DEFAULT_NET_RESET_V))] *)
Definition reset_threshold (configured : option Q) : Q :=
  default DEFAULT_NET_RESET_V configured.

(** [check_battery_reset_condition(battery_v, battery_w)]. [now_us] is the
    value of [datetime.now()] in microseconds and [now_reset] the later
    reading of [now_str()] (seconds) taken by the reset. *)
Definition check_battery_reset_condition (configured : option Q) (now_us now_reset : Z)
    (battery_v battery_w : option Q) (tbl : Table) : bool * Table :=
  match battery_v, battery_w with
  | Some v, Some w =>
      let reset_thr := reset_threshold configured in
      if Qltb w 0 && Qle_bool v reset_thr then
        let recent :=
          match latest_counter tbl with
          | Some last => now_us - start_timestamp last * 1000000 <? 3600 * 1000000
          | None => false
          end in
        if recent then (false, tbl)
        else (true, snd (reset_battery_counter (reason_auto reset_thr v) now_reset tbl))
      else (false, tbl)
  | _, _ => (false, tbl)
  end.

(** What happens to the table: an acquisition cycle of [poll_loop] (reset
    check, then update) or a request to the manual reset endpoint. *)
Inductive Event :=
  | Poll (now_us now_reset now_update : Z) (battery_v battery_w : option Q)
  | ManualReset (now : Z) (reason : string).

(** One event; the flag tells whether an automatic reset was made. *)
Definition step (configured : option Q) (POLL_S : Q) (e : Event) (tbl : Table)
    : bool * Table :=
  match e with
  | Poll now_us now_reset now_update v w =>
      let '(fired, tbl1) :=
        check_battery_reset_condition configured now_us now_reset v w tbl in
      (fired, update_battery_counter POLL_S now_update w v tbl1)
  | ManualReset now reason =>
      (false, snd (reset_battery_counter (reason_text reason) now tbl))
  end.

(** A run of events, with the start timestamps of the counters opened by the
    automatic resets, in order. *)
Fixpoint run (configured : option Q) (POLL_S : Q) (events : list Event) (tbl : Table)
    : Table * list Z :=
  match events with
  | [] => (tbl, [])
  | e :: rest =>
      let '(fired, tbl1) := step configured POLL_S e tbl in
      let '(tbl2, log) := run configured POLL_S rest tbl1 in
      (tbl2, match e, fired with
             | Poll _ now_reset _ _ _, true => now_reset :: log
             | _, _ => log
             end)
  end.


(** One call of [update_battery_counter]: the clock reading it would use
    for a new counter and its two arguments. *)
Record Reading := { at_time : Z; reading_w : option Q; reading_v : option Q }.

(** A run of updates only. *)
Definition run_updates (POLL_S : Q) (ups : list Reading) (tbl : Table) : Table :=
  fold_left
    (fun t u => update_battery_counter POLL_S (at_time u) (reading_w u) (reading_v u) t)
    ups tbl.



(** Charging and discharging alternately, 500 W each way, POLL_S = 5. *)
Definition alternating (n : nat) : list Reading :=
  flat_map
    (fun i =>
       [ {| at_time := 10 * Z.of_nat i;
            reading_w := Some 500%Q; reading_v := Some 52%Q |};
         {| at_time := 10 * Z.of_nat i + 5;
            reading_w := Some (-500)%Q; reading_v := Some 51%Q |} ])
    (seq 0 n).

(** A day with a deep discharge: the voltage stays under the threshold for
    several cycles, and a manual reset is requested in between. *)
Definition discharge_events : list Event :=
  [ Poll 7200000000 7200 7200 (Some 45.9%Q) (Some (-300)%Q);
    Poll 7205000000 7205 7205 (Some 45.8%Q) (Some (-300)%Q);
    ManualReset 7300 "operator";
    Poll 10800000000 10800 10800 (Some 45.5%Q) (Some (-200)%Q);
    Poll 10900000000 10900 10900 (Some 45.5%Q) (Some (-200)%Q);
    Poll 10905000000 10905 10905 (Some 50%Q) (Some 100%Q);
    Poll 14500000000 14500 14500 (Some 45%Q) (Some (-50)%Q) ].

(** [reset_reason IS NULL] on a row of type daily_net: the row is open. *)
Definition is_open (c : Counter) : bool :=
  is_daily_net (counter_type c) && negb (bool_decide (is_Some (reset_reason c))).

Definition open_counters (tbl : Table) : list Counter := List.filter is_open tbl.

(** [SELECT total_batt_net_Wh FROM battery_counters ORDER BY id DESC LIMIT 1]
    in [inverter()]: the net total of the row with the largest id, 0.0 on an
    empty table. *)
Definition newest_by_id (tbl : Table) : option Counter :=
  fold_left
    (fun best c =>
       match best with
       | Some b => if id b <? id c then Some c else Some b
       | None => Some c
       end)
    tbl None.

Definition battery_net_wh (tbl : Table) : Q :=
  match newest_by_id tbl with
  | Some c => total_batt_net_Wh c
  | None => 0
  end.

(** The operator asks for a reset twice within one second, after a first
    cycle of charge; two more cycles follow (POLL_S = 5: 720 W is 1 Wh). *)
Definition same_second_resets : list Event :=
  [ Poll 0 0 0 (Some 52%Q) (Some 720%Q);
    ManualReset 100 "manual"; ManualReset 100 "manual";
    Poll 105000000 105 105 (Some 52%Q) (Some 720%Q);
    Poll 110000000 110 110 (Some 52%Q) (Some (-360)%Q) ].

(** The reset is stamped earlier than the start of the counter it closes:
    the local clock was set back in between. *)
Definition clock_set_back : list Event :=
  [ Poll 100000000 100 100 (Some 52%Q) (Some 720%Q);
    ManualReset 50 "manual";
    Poll 55000000 55 55 (Some 52%Q) (Some 720%Q) ].






(** The relation between the three totals of a row. *)
Definition net_ok (c : Counter) : Prop :=
  total_batt_net_Wh c = (total_batt_in_Wh c - total_batt_out_Wh c)%Q.

End Battery.

(** ** Daily analyzer ([daily_analyzer.py], class [DailyAnalyzer]) *)

Module Analyzer.

(** The keys listed in [numeric_fields]. *)
Inductive Field :=
  | f_pv_w | f_battery_w | f_grid_w | f_load_w
  | f_pv_v | f_battery_v | f_grid_v | f_load_v.

Definition numeric_fields : list Field :=
  [f_pv_w; f_battery_w; f_grid_w; f_load_w; f_pv_v; f_battery_v; f_grid_v; f_load_v].

(** The four power channels, in the order the anomaly loops visit them. *)
Definition power_fields : list Field := [f_pv_w; f_battery_w; f_grid_w; f_load_w].

(** [s.get(field)] *)
Definition get (f : Field) (s : Sample) : option Q :=
  match f with
  | f_pv_w => pv_w s | f_battery_w => battery_w s
  | f_grid_w => grid_w s | f_load_w => load_w s
  | f_pv_v => pv_v s | f_battery_v => battery_v s
  | f_grid_v => grid_v s | f_load_v => load_v s
  end.

(** [s.get(field, 0)] where the key is absent or present with a number. *)
Definition get0 (f : Field) (s : Sample) : Q := default 0%Q (get f s).

(** [sum(values)] and [len(values)] as a float. *)
Definition py_sum (l : list Q) : Q := fold_left Qplus l 0%Q.
Definition py_len (l : list Q) : Q := inject_Z (Z.of_nat (length l)).

(** [round(x, ndigits)] on exact values: to the nearest multiple of
    [10^-ndigits], ties to the even one. *)
Definition round_half_even (y : Q) : Z :=
  let f := Qfloor y in
  let r := (y - inject_Z f)%Q in
  if Qltb r (1 # 2) then f
  else if Qltb (1 # 2) r then f + 1
  else if Z.even f then f else f + 1.

Definition py_round (x : Q) (ndigits : Z) : Q :=
  (inject_Z (round_half_even (x * inject_Z (10 ^ ndigits))) / inject_Z (10 ^ ndigits))%Q.

(** [_average_samples]: the interval average keeps the timestamp of the first
    sample and the mean of every numeric field that has a value; [None]
    stands for the empty dictionary returned for an empty group. *)
Definition avg_field (f : Field) (samples : list Sample) : option Q :=
  match omap (get f) samples with
  | [] => None
  | values => Some (py_sum values / py_len values)%Q
  end.

Definition _average_samples (samples : list Sample) : option Sample :=
  match samples with
  | [] => None
  | first :: _ =>
      Some {| timestamp := timestamp first;
              pv_w := avg_field f_pv_w samples;
              pv_v := avg_field f_pv_v samples;
              pv_a := None;
              battery_w := avg_field f_battery_w samples;
              battery_v := avg_field f_battery_v samples;
              battery_a := None;
              grid_w := avg_field f_grid_w samples;
              grid_v := avg_field f_grid_v samples;
              grid_hz := None; grid_a := None;
              load_w := avg_field f_load_w samples;
              load_v := avg_field f_load_v samples;
              load_hz := None; load_a := None; load_va := None;
              load_pf := None; load_percent := None;
              dc_temp := None; inverter_temp := None; heatsink_temp := None;
              dc_bus_v := None |}
  end.

(** [timestamp.replace(minute=(minute // n) * n, second=0, microsecond=0)] *)
Definition interval_start (ts interval_minutes : Z) : Z :=
  ts - ts mod 3600 + (ts_minute ts / interval_minutes * interval_minutes) * 60.

Definition append_average (aggregated current_samples : list Sample) : list Sample :=
  match _average_samples current_samples with
  | Some a => aggregated ++ [a]
  | None => aggregated
  end.

(** The loop of [_aggregate_samples_by_interval], with its three variables. *)
Fixpoint aggregate_loop (interval_minutes : Z) (samples aggregated : list Sample)
    (current_interval : option Z) (current_samples : list Sample)
    : list Sample * list Sample :=
  match samples with
  | [] => (aggregated, current_samples)
  | sample :: rest =>
      let start := interval_start (timestamp sample) interval_minutes in
      if bool_decide (current_interval = Some start) then
        aggregate_loop interval_minutes rest aggregated current_interval
          (current_samples ++ [sample])
      else
        aggregate_loop interval_minutes rest
          (append_average aggregated current_samples) (Some start) [sample]
  end.

Definition _aggregate_samples_by_interval (samples : list Sample) (interval_minutes : Z)
    : list Sample :=
  let '(aggregated, current_samples) :=
    aggregate_loop interval_minutes samples [] None [] in
  append_average aggregated current_samples.

(** [_calculate_energy_from_power]: every sample with a value counts for one
    interval of [interval_minutes]; a sample without the key adds nothing. *)
Definition _calculate_energy_from_power (samples : list Sample) (field : Field)
    (interval_minutes : Z) : Q :=
  let total_energy_wh :=
    fold_left
      (fun total sample =>
         match get field sample with
         | Some power_w => (total + Qabs power_w * (inject_Z interval_minutes / 60))%Q
         | None => total
         end)
      samples 0%Q in
  (total_energy_wh / 1000)%Q.

Inductive Severity := high | medium.

(** The entries of the anomaly list. The [threshold] reported with a power
    peak is a square root and is not carried by the model. *)
Inductive Anomaly :=
  | power_peak (field : Field) (ts : Z) (value : Q) (sev : Severity)
  | sudden_change (field : Field) (ts : Z) (change_kw from_kw to_kw : Q)
  | pv_night_production_anomaly (ts : Z) (night_production_kwh : Q)
      (samples_count : nat) (max_night_power_kw : Q).

Definition severity (a : Anomaly) : Severity :=
  match a with
  | power_peak _ _ _ sev => sev
  | sudden_change _ _ _ _ _ => medium
  | pv_night_production_anomaly _ _ _ _ => medium
  end.

Definition is_high (s : Severity) : bool :=
  match s with high => true | medium => false end.

Definition is_night_anomaly (a : Anomaly) : bool :=
  match a with pv_night_production_anomaly _ _ _ _ => true | _ => false end.

(** [sample.get('pv_w') and sample['pv_w'] > 100] *)
Definition pv_above_100 (s : Sample) : bool :=
  match pv_w s with
  | Some p => negb (Qeq_bool p 0) && Qltb 100 p
  | None => false
  end.

(** [timestamp.hour in night_hours], [night_hours = 22, 23, 0, ..., 5] *)
Definition night_hours : list Z := [22; 23; 0; 1; 2; 3; 4; 5].

Definition in_night_hours (ts : Z) : bool :=
  existsb (Z.eqb (ts_hour ts)) night_hours.

Definition night_pv_samples (samples : list Sample) : list Sample :=
  List.filter (fun s => pv_above_100 s && in_night_hours (timestamp s)) samples.

(** [max(s['pv_w'] for s in ...)] *)
Definition py_max (x : Q) (l : list Q) : Q :=
  fold_left (fun m v => if Qltb m v then v else m) l x.

(** [_detect_pv_night_production] *)
Definition _detect_pv_night_production (samples : list Sample) : list Anomaly :=
  match night_pv_samples samples with
  | [] => []
  | first :: others =>
      let night := first :: others in
      let night_production_kwh := _calculate_energy_from_power night f_pv_w 5 in
      if Qltb 0.5 night_production_kwh then
        [pv_night_production_anomaly (timestamp first)
           (py_round night_production_kwh 3) (length night)
           (py_round (py_max (get0 f_pv_w first) (get0 f_pv_w <$> others) / 1000) 3)]
      else []
  end.

(** [min(items, key=...)] and [max(items, key=...)]: the first extreme item. *)
Definition py_min_by {K : Type} (ltb : K -> K -> bool) (key : Sample -> K)
    (first : Sample) (others : list Sample) : Sample :=
  fold_left (fun best y => if ltb (key y) (key best) then y else best) others first.

Definition py_max_by {K : Type} (ltb : K -> K -> bool) (key : Sample -> K)
    (first : Sample) (others : list Sample) : Sample :=
  fold_left (fun best y => if ltb (key best) (key y) then y else best) others first.

Definition SIGNIFICANT_PRODUCTION_THRESHOLD : Q := 100.
Definition MIN_SUNRISE_HOUR : Z := 6.
Definition MAX_SUNSET_HOUR : Z := 20.

(** [s.get('pv_w') and s['pv_w'] > SIGNIFICANT_PRODUCTION_THRESHOLD] followed
    by [MIN_SUNRISE_HOUR <= timestamp.hour <= MAX_SUNSET_HOUR]. *)
Definition is_significant (s : Sample) : bool :=
  match pv_w s with
  | Some p =>
      negb (Qeq_bool p 0) && Qltb SIGNIFICANT_PRODUCTION_THRESHOLD p
      && ((MIN_SUNRISE_HOUR <=? ts_hour (timestamp s))
          && (ts_hour (timestamp s) <=? MAX_SUNSET_HOUR))
  | None => false
  end.

Definition significant_pv_samples (samples : list Sample) : list Sample :=
  List.filter is_significant samples.

(** The dictionary returned by [_analyze_pv] when production was found; the
    nested [production_pattern] and the constant entries are left out. *)
Record PvSummary := {
  total_energy_kwh : Q;
  production_start : Z;
  production_end : Z;
  duration_hours : Q;
  peak_power_kw : Q;
  peak_time : Z;
  peak_voltage : option Q;
  peak_current : option Q;
  avg_power_kw : Q
}.

(** What [_analyze_pv] computes from the significant samples. *)
Definition pv_summary_of (first : Sample) (others : list Sample) : PvSummary :=
  let significant := first :: others in
  let aggregated_samples := _aggregate_samples_by_interval significant 5 in
  let total := _calculate_energy_from_power aggregated_samples f_pv_w 5 in
  let first_production := py_min_by Z.ltb timestamp first others in
  let last_production := py_max_by Z.ltb timestamp first others in
  let peak_sample := py_max_by Qltb (get0 f_pv_w) first others in
  let duration :=
    (inject_Z (timestamp last_production - timestamp first_production) / 3600)%Q in
  let duration := if Qltb 14.0 duration then 14.0%Q else duration in
  {| total_energy_kwh := py_round total 3;
     production_start := timestamp first_production;
     production_end := timestamp last_production;
     duration_hours := py_round duration 2;
     peak_power_kw := py_round (get0 f_pv_w peak_sample / 1000) 3;
     peak_time := timestamp peak_sample;
     peak_voltage := pv_v peak_sample;
     peak_current := pv_a peak_sample;
     avg_power_kw := py_round (if Qltb 0 duration then total / duration else 0) 3 |}.

(** [_analyze_pv]; [None] is the status "no_significant_production". *)
Definition _analyze_pv (samples : list Sample) : option PvSummary :=
  match significant_pv_samples samples with
  | [] => None
  | first :: others => Some (pv_summary_of first others)
  end.

(** Mean and variance as in [_detect_anomalies]; [std_dev] is the square root
    of [variance]. *)
Definition mean (l : list Q) : Q := (py_sum l / py_len l)%Q.

Definition variance (l : list Q) : Q :=
  let mean_val := mean l in
  (py_sum ((fun x => (x - mean_val) * (x - mean_val)) <$> l) / py_len l)%Q.

(** [v > mean_val + k * std_dev] for [0 <= k], decided without the root:
    the difference is positive and its square exceeds [k^2 * variance]. *)
Definition above_sigma (k v mean_val var : Q) : bool :=
  Qltb 0 (v - mean_val) && Qltb (k * k * var) ((v - mean_val) * (v - mean_val)).

(** Per channel: the factor of [std_dev] and [min_threshold]. *)
Definition sigma_factor (field : Field) : Q :=
  match field with
  | f_pv_w => 4
  | f_grid_w => 3.5
  | f_load_w => 3.5
  | _ => 3
  end.

Definition min_threshold (field : Field) : Q :=
  match field with
  | f_pv_w => 500
  | f_grid_w => 500
  | f_load_w => 800
  | _ => 300
  end.

(** [x > max(mean_val + k * std_dev, min_threshold)] *)
Definition above_threshold (field : Field) (v mean_val var : Q) : bool :=
  above_sigma (sigma_factor field) v mean_val var && Qltb (min_threshold field) v.

Definition is_nil {A : Type} (l : list A) : bool :=
  match l with [] => true | _ => false end.

(** The values the statistics of a channel are computed from:
    [filtered_values = [v for v in values if abs(v) < 10000]]. *)
Definition filtered_values (field : Field) (aggregated : list Sample) : list Q :=
  List.filter (fun v => Qltb (Qabs v) 10000) (omap (get field) aggregated).

(** One round of the first loop of [_detect_anomalies]. For [pv_w] the list
    [filtered_values] is narrowed to the values above 100 only after the mean
    and the deviation have been computed; the narrowed list is then tested
    for emptiness and not used again. *)
Definition power_peaks (field : Field) (aggregated : list Sample) : list Anomaly :=
  let filtered := filtered_values field aggregated in
  if is_nil filtered then []
  else
    let mean_val := mean filtered in
    let var := variance filtered in
    let skip :=
      match field with
      | f_pv_w => is_nil (List.filter (fun v => Qltb 100 v) filtered)
      | _ => false
      end in
    if skip then []
    else
      (fun s =>
         power_peak field (timestamp s) (py_round (get0 field s / 1000) 3)
           (if above_sigma 5 (get0 field s) mean_val var then high else medium))
      <$> List.filter (fun s => above_threshold field (get0 field s) mean_val var)
            aggregated.

(** The second loop: swings between consecutive interval averages. *)
Definition change_between (prev curr : Sample) (field : Field) : list Anomaly :=
  match get field prev, get field curr with
  | Some p, Some c =>
      let change := Qabs (c - p) in
      if Qltb 8000 change then
        [sudden_change field (timestamp curr) (py_round (change / 1000) 3)
           (py_round (p / 1000) 3) (py_round (c / 1000) 3)]
      else []
  | _, _ => []
  end.

Fixpoint sudden_changes (prev : Sample) (rest : list Sample) : list Anomaly :=
  match rest with
  | [] => []
  | curr :: rest' =>
      flat_map (change_between prev curr) power_fields ++ sudden_changes curr rest'
  end.

(** The dictionary returned by [_detect_anomalies]. *)
Record AnomalyReport := {
  total_anomalies : nat;
  anomalies : list Anomaly;
  high_severity : nat;
  medium_severity : nat;
  pv_night_anomalies : nat
}.

Definition _detect_anomalies (samples : list Sample) : AnomalyReport :=
  let aggregated_samples := _aggregate_samples_by_interval samples 5 in
  let peaks := flat_map (fun field => power_peaks field aggregated_samples) power_fields in
  let changes :=
    match aggregated_samples with
    | [] => []
    | first :: rest => sudden_changes first rest
    end in
  let night := _detect_pv_night_production samples in
  let all := peaks ++ changes ++ night in
  {| total_anomalies := length all;
     anomalies := all;
     high_severity := length (List.filter (fun a => is_high (severity a)) all);
     medium_severity := length (List.filter (fun a => negb (is_high (severity a))) all);
     pv_night_anomalies := length night |}.

(** The statistics as the specification words them: for the PV channel the
    mean and the deviation are taken over the values above 100 W only. *)
Definition claimed_stat_values (field : Field) (aggregated : list Sample) : list Q :=
  match field with
  | f_pv_w => List.filter (fun v => Qltb 100 v) (filtered_values field aggregated)
  | _ => filtered_values field aggregated
  end.

Definition claimed_flagged (field : Field) (aggregated : list Sample) (s : Sample) : bool :=
  let vals := claimed_stat_values field aggregated in
  negb (is_nil vals)
  && above_threshold field (get0 field s) (mean vals) (variance vals).

(** The interval of local hours the specification gives for significant
    production: from 6 included to 20 excluded. *)
Definition claimed_hour_window (ts : Z) : bool :=
  (6 <=? ts_hour ts) && (ts_hour ts <? 20).

(** Samples that carry a PV power only. *)
Definition pv_only (ts : Z) (p : Q) : Sample :=
  power_sample ts (Some p) None None None None.

(** A dull day: no production in the 24 intervals from 10:00 on, then one
    interval at 600 W at 12:00. *)
Definition dull_day : list Sample :=
  ((fun i => pv_only (36000 + 300 * i) 0) <$> seqZ 0 24) ++ [pv_only 43200 600].

(** A single sample of 500 W at 20:30. *)
Definition evening_sample : Sample := pv_only (20 * 3600 + 1800) 500.

(** [n] samples of 1200 W, five minutes apart, from 23:00 on: 0.1 kWh each. *)
Definition night_injection (n : Z) : list Sample :=
  (fun i => pv_only (23 * 3600 + 300 * i) 1200) <$> seqZ 0 n.

(** Two samples of 3500 W at night, five seconds apart. *)
Definition night_burst : list Sample :=
  [pv_only (23 * 3600) 3500; pv_only (23 * 3600 + 5) 3500].

(** A quarter of an hour at 1200 W from 23:00 on, read every five seconds
    (the default polling interval): 180 samples, 0.3 kWh. *)
Definition quarter_hour_at_night : list Sample :=
  (fun i => pv_only (23 * 3600 + 5 * i) 1200) <$> seqZ 0 180.

End Analyzer.

(** ** Field-bus registers ([REGS], [_blocks], [read_regs]) *)

Module FieldBus.

(** One entry of [REGS]: name, address, scale. *)
Record Reg := { reg_name : string; reg_addr : Z; reg_scale : Q }.

Definition REGS : list Reg :=
  [ {| reg_name := "battery_a"; reg_addr := 216; reg_scale := 0.1 |};
    {| reg_name := "battery_v"; reg_addr := 215; reg_scale := 0.1 |};
    {| reg_name := "battery_w"; reg_addr := 217; reg_scale := 1 |};
    {| reg_name := "dc_temp"; reg_addr := 226; reg_scale := 1 |};
    {| reg_name := "grid_hz"; reg_addr := 203; reg_scale := 0.01 |};
    {| reg_name := "grid_v"; reg_addr := 202; reg_scale := 0.1 |};
    {| reg_name := "grid_w"; reg_addr := 204; reg_scale := 1 |};
    {| reg_name := "heatsink_temp"; reg_addr := 228; reg_scale := 1 |};
    {| reg_name := "inverter_temp"; reg_addr := 227; reg_scale := 1 |};
    {| reg_name := "dc_bus_v"; reg_addr := 218; reg_scale := 0.1 |};
    {| reg_name := "load_v"; reg_addr := 210; reg_scale := 0.1 |};
    {| reg_name := "load_a"; reg_addr := 211; reg_scale := 0.1 |};
    {| reg_name := "load_hz"; reg_addr := 212; reg_scale := 0.01 |};
    {| reg_name := "load_w"; reg_addr := 213; reg_scale := 1 |};
    {| reg_name := "load_va"; reg_addr := 214; reg_scale := 1 |};
    {| reg_name := "load_percent"; reg_addr := 225; reg_scale := 1 |};
    {| reg_name := "pv_a"; reg_addr := 220; reg_scale := 0.1 |};
    {| reg_name := "pv_v"; reg_addr := 219; reg_scale := 0.1 |};
    {| reg_name := "pv_w"; reg_addr := 223; reg_scale := 1 |} ].

Definition SIGNED : list string := ["battery_a"; "battery_w"].

Definition is_signed (name : string) : bool :=
  existsb (String.eqb name) SIGNED.

(** [sorted(regs, key=lambda r: r[1])]: a stable sort, each entry going
    behind the entries already placed whose address is not larger. *)
Fixpoint insert_by_addr (r : Reg) (l : list Reg) : list Reg :=
  match l with
  | [] => [r]
  | x :: rest =>
      if reg_addr r <? reg_addr x then r :: l else x :: insert_by_addr r rest
  end.

Definition sorted_by_addr (regs : list Reg) : list Reg :=
  fold_left (fun acc r => insert_by_addr r acc) regs [].

(** [cur[-1][1]]; the list is never empty where the code reads it. *)
Definition last_addr (cur : list Reg) : Z :=
  match last cur with
  | Some r => reg_addr r
  | None => 0
  end.

(** The loop of [_blocks] with its variables [out], [start] and [cur]. *)
Fixpoint blocks_loop (max_gap max_len : Z) (items : list Reg)
    (out : list (Z * list Reg)) (start : option Z) (cur : list Reg)
    : list (Z * list Reg) * option Z * list Reg :=
  match items with
  | [] => (out, start, cur)
  | r :: rest =>
      match start with
      | None => blocks_loop max_gap max_len rest out (Some (reg_addr r)) [r]
      | Some s =>
          if (reg_addr r - last_addr cur <=? max_gap)
             && (reg_addr r - s + 1 <=? max_len)
          then blocks_loop max_gap max_len rest out start (cur ++ [r])
          else blocks_loop max_gap max_len rest (out ++ [(s, cur)])
                 (Some (reg_addr r)) [r]
      end
  end.

(** [_blocks(max_gap, max_len)] over a register table. *)
Definition blocks_of (regs : list Reg) (max_gap max_len : Z) : list (Z * list Reg) :=
  let '(out, start, cur) :=
    blocks_loop max_gap max_len (sorted_by_addr regs) [] None [] in
  match start with
  | Some s => out ++ [(s, cur)]
  | None => out
  end.

(** [_blocks()] with its default arguments, on [REGS]. *)
Definition _blocks : list (Z * list Reg) := blocks_of REGS 1 16.

(** [count = block[-1][1] - start + 1] *)
Definition block_count (start : Z) (block : list Reg) : Z :=
  last_addr block - start + 1.

(** [seq[i]] on a Python list: a negative index counts from the end, an
    index outside the list raises ([None]). *)
Definition py_index {A : Type} (l : list A) (i : Z) : option A :=
  if i <? 0 then
    if - i <=? Z.of_nat (length l) then l !! Z.to_nat (Z.of_nat (length l) + i)
    else None
  else l !! Z.to_nat i.

(** [float(raw) * scale], with [_to_signed16] on the signed names. *)
Definition decode_reg (r : Reg) (raw : Z) : Q :=
  (inject_Z (if is_signed (reg_name r) then Ads1115._to_signed16 raw else raw)
   * reg_scale r)%Q.

(** The inner loop of [read_regs] over one block; [None] is the IndexError
    of a response that is too short. *)
Fixpoint decode_block (regs : list Z) (start : Z) (block : list Reg)
    (out : gmap string Q) : option (gmap string Q) :=
  match block with
  | [] => Some out
  | r :: rest =>
      match py_index regs (reg_addr r - start) with
      | Some raw => decode_block regs start rest (<[reg_name r := decode_reg r raw]> out)
      | None => None
      end
  end.

(** The device as [read_holding_registers(start, count)] sees it: the
    registers of the answer, or an error. *)
Definition Bus : Type := Z -> Z -> option (list Z).

(** The pymodbus path of [read_regs] once the port is open: one bulk read
    per block; an error answer or an exception ends the read ([None]). *)
Fixpoint read_blocks (bus : Bus) (blocks : list (Z * list Reg)) (out : gmap string Q)
    : option (gmap string Q) :=
  match blocks with
  | [] => Some out
  | (start, block) :: rest =>
      match bus start (block_count start block) with
      | Some regs =>
          match decode_block regs start block out with
          | Some out1 => read_blocks bus rest out1
          | None => None
          end
      | None => None
      end
  end.

Definition read_regs (bus : Bus) : option (gmap string Q) :=
  read_blocks bus _blocks ∅.

(** A device that answers every request from its register file. *)
Definition memory_bus (mem : Z -> Z) : Bus :=
  fun start count => Some (mem <$> seqZ start count).

(** Addresses in ascending order. *)
Definition ascending (l : list Reg) : Prop :=
  Sorted (fun a b => reg_addr a <= reg_addr b) l.

(** A block as [read_regs] needs it: it starts at the address of its first
    register, its addresses lie between the start and the last address, and
    its register count does not exceed [max_len]. *)
Definition block_ok (max_len : Z) (b : Z * list Reg) : Prop :=
  exists first,
    head (snd b) = Some first
    /\ reg_addr first = fst b
    /\ Forall (fun r => fst b <= reg_addr r <= last_addr (snd b)) (snd b)
    /\ block_count (fst b) (snd b) <= max_len.

End FieldBus.

(** ** Acquisition cycle: derived fields and state of charge *)

Module Acquisition.

(** [float(x or 0.0)] *)
Definition float_or0 (x : option Q) : Q := default 0%Q x.

(** [max(0.0, min(1.0, val))] with Python's [min] and [max]. *)
Definition py_min2 (a b : Q) : Q := if Qltb b a then b else a.
Definition py_max2 (a b : Q) : Q := if Qltb a b then b else a.

Definition clamp01 (val : Q) : Q := py_max2 0 (py_min2 1 val).

(** [(abs(lw)/abs(lva)) if abs(lva) > 1e-6 else None], then the clamp. *)
Definition estimated_pf (lw lva : Q) : option Q :=
  if Qltb (1 # 1000000) (Qabs lva)
  then Some (clamp01 (Qabs lw / Qabs lva))
  else None.

(** The two derived fields written by [poll_loop] before the sample is
    stored: [grid_a] always, [load_pf] when it is missing or not positive. *)
Definition derive_fields (s : Sample) : Sample :=
  let gv := float_or0 (grid_v s) in
  let gw := float_or0 (grid_w s) in
  let new_grid_a := if Qeq_bool gv 0 then 0%Q else (gw / gv)%Q in
  let lw := float_or0 (load_w s) in
  let lva := float_or0 (load_va s) in
  let new_load_pf :=
    match load_pf s with
    | Some pf => if Qle_bool pf 0 then estimated_pf lw lva else Some pf
    | None => estimated_pf lw lva
    end in
  {| timestamp := timestamp s;
     pv_w := pv_w s; pv_v := pv_v s; pv_a := pv_a s;
     battery_w := battery_w s; battery_v := battery_v s; battery_a := battery_a s;
     grid_w := grid_w s; grid_v := grid_v s; grid_hz := grid_hz s;
     grid_a := Some new_grid_a;
     load_w := load_w s; load_v := load_v s; load_hz := load_hz s;
     load_a := load_a s; load_va := load_va s;
     load_pf := new_load_pf;
     load_percent := load_percent s;
     dc_temp := dc_temp s; inverter_temp := inverter_temp s;
     heatsink_temp := heatsink_temp s; dc_bus_v := dc_bus_v s |}.

(** The state of charge computed by [inverter()]:
    [round(max(0.0, min(100.0, 100.0 * (v - vmin) / (vmax - vmin))), 1)] when
    [vmax > vmin]; otherwise the key is not set. *)
Definition soc_pct (vmax vmin : Q) (battery_v : option Q) : option Q :=
  let v := float_or0 battery_v in
  if Qltb vmin vmax
  then Some (Analyzer.py_round
               (py_max2 0 (py_min2 100 (100 * (v - vmin) / (vmax - vmin)))) 1)
  else None.

End Acquisition.

(** ** Relay state endpoint and configuration requests *)

Module RelayApi.
Import Relay.

(** [(level == 1) if active_high else (level == 0)] *)
Definition infer_state (active_high : bool) (level : Z) : bool :=
  if active_high then level =? 1 else level =? 0.

(** The entries "state" and "gpio_level" of the answer of [relay_state()]. *)
Definition relay_state (cfg : RelayCfg) (w : World) : option bool * option Z :=
  if negb (enabled cfg) then (RELAY_STATE (snd w), None)
  else
    let level := _gpio_read (gpio_pin cfg) (fst w) in
    let current_state :=
      match RELAY_STATE (snd w), level with
      | None, Some lv => Some (infer_state (active_high cfg) lv)
      | cur, _ => cur
      end in
    (current_state, level).

(** The relay part of a configuration request, each key present or not, with
    values of the types the settings page sends. *)
Record RelayPatch := {
  p_mode : option string;
  p_enabled : option bool;
  p_gpio_pin : option Z;
  p_active_high : option bool;
  p_on_v : option Q;
  p_off_v : option Q;
  p_min_toggle_sec : option Z
}.


(** [str.lower()] on ASCII letters. *)
Definition lower_ascii (c : Ascii.ascii) : Ascii.ascii :=
  let n := Ascii.nat_of_ascii c in
  if ((65 <=? n)%nat && (n <=? 90)%nat)%bool then Ascii.ascii_of_nat (n + 32) else c.

Fixpoint lower (s : string) : string :=
  match s with
  | EmptyString => EmptyString
  | String c rest => String (lower_ascii c) (lower rest)
  end.







(** [CONF["relay"]] as the controller reads it, and the assignment
    [CONF["relay"][k] = r[k]] made by [config()] for every key of the
    request. *)
Definition merge_relay (r : RelayPatch) (cfg : RelayCfg) : RelayCfg :=
  {| mode_gpio :=
       match p_mode r with
       | Some m => String.eqb (lower m) "gpio"
       | None => mode_gpio cfg
       end;
     enabled := default (enabled cfg) (p_enabled r);
     gpio_pin := default (gpio_pin cfg) (p_gpio_pin r);
     active_high := default (active_high cfg) (p_active_high r);
     on_v := default (on_v cfg) (p_on_v r);
     off_v := default (off_v cfg) (p_off_v r);
     min_toggle_sec := default (min_toggle_sec cfg) (p_min_toggle_sec r) |}.

(** A request that carries nothing but [on_v]. *)
Definition only_on_v (x : Q) : RelayPatch :=
  {| p_mode := None; p_enabled := None; p_gpio_pin := None; p_active_high := None;
     p_on_v := Some x; p_off_v := None; p_min_toggle_sec := None |}.

End RelayApi.

(** ** Store maintenance: [db_trim], [db_archive_upto_today] *)

Module StoreOps.
Import Store.

(** [datetime.now().strftime("%Y-%m-%d 00:00:00")], [now] in seconds. *)
Definition today_cutoff (now : Z) : Z := now / 86400 * 86400.

(** [db_archive_upto_today()]: the body of [db_archive_and_trim] with the
    cutoff at the start of the current day. *)
Definition db_archive_upto_today (now : Z) (d : DB) : DB :=
  archive_and_trim_at (today_cutoff now) d.

(** [db_trim(days)]: delete without archiving; the cutoff keeps the time of
    day. *)
Definition db_trim (now days : Z) (d : DB) : DB :=
  {| samples := delete_older (now - days * 86400) (samples d);
     archive := archive d |}.

(** Every row of the table is stored under its own timestamp, as
    [insert_sample] leaves it. *)
Definition keyed_by_timestamp (tbl : gmap Z Sample) : Prop :=
  map_Forall (fun k r => timestamp r = k) tbl.

End StoreOps.

(** * Verified properties *)

(** ** Boolean comparisons reflect the order of the rationals *)

Lemma Qltb_lt (a b : Q) : Qltb a b = true <-> (a < b)%Q.
Proof.
  unfold Qltb. rewrite negb_true_iff, <- not_true_iff_false, Qle_bool_iff.
  split; [apply Qnot_le_lt | apply Qlt_not_le].
Qed.

Lemma Qltb_ge (a b : Q) : Qltb a b = false <-> (b <= a)%Q.
Proof.
  unfold Qltb. rewrite negb_false_iff. apply Qle_bool_iff.
Qed.

Lemma Qgeb_ge (a b : Q) : Qgeb a b = true <-> (b <= a)%Q.
Proof. unfold Qgeb. apply Qle_bool_iff. Qed.

(** ** ADS1115 sign correction *)

Module Ads1115Facts.
Import Ads1115.

Lemma land_shift_byte (d0 d1 : Z) :
  0 <= d1 <= 255 -> Z.land (Z.shiftl d0 8) d1 = 0.
Proof.
  intros H1. apply Z.bits_inj'. intros n Hn.
  rewrite Z.land_spec, Z.bits_0.
  destruct (Z.lt_ge_cases n 8) as [Hlt | Hge].
  - rewrite Z.shiftl_spec_low by lia. reflexivity.
  - assert (Hd : Z.testbit d1 n = false).
    { destruct (Z.eq_dec d1 0) as [-> | Hnz]; [apply Z.bits_0 |].
      apply Z.bits_above_log2; [lia |].
      apply Z.log2_lt_pow2; [lia |].
      apply Z.lt_le_trans with (2 ^ 8); [simpl; lia |].
      apply Z.pow_le_mono_r; lia. }
    rewrite Hd. apply andb_false_r.
Qed.

(** The two bytes of the conversion register form a value in [0, 65535]. *)
Lemma raw_of_bytes_range (d0 d1 : Z) :
  0 <= d0 <= 255 -> 0 <= d1 <= 255 ->
  raw_of_bytes d0 d1 = 256 * d0 + d1 /\ 0 <= raw_of_bytes d0 d1 <= 65535.
Proof.
  intros H0 H1. unfold raw_of_bytes.
  rewrite <- Z.lxor_lor, <- Z.add_nocarry_lxor by (apply land_shift_byte; lia).
  rewrite Z.shiftl_mul_pow2 by lia. change (2 ^ 8) with 256. lia.
Qed.

(** C10. The sign correction sends a raw conversion value [r] of
    [0 .. 65535] to [r] when [r <= 32767] and to [r - 65535] otherwise, so
    that 32768 becomes -32767 and 65535 becomes 0; on every negative reading
    it is one more than the 16-bit two's complement value. *)
Theorem sign_correct_off_by_one (r : Z) (Hr : 0 <= r <= 65535) :
  sign_correct r = (if r <=? 32767 then r else r - 65535)
  /\ (r <= 32767 -> sign_correct r = _to_signed16 r)
  /\ (32767 < r -> _to_signed16 r < 0 /\ sign_correct r = _to_signed16 r + 1)
  /\ sign_correct 32768 = -32767
  /\ sign_correct 65535 = 0.
Proof.
  unfold sign_correct, _to_signed16.
  repeat split; try reflexivity.
  - destruct (Z.gtb_spec r 32767), (Z.leb_spec r 32767); lia.
  - intros Hle. destruct (Z.gtb_spec r 32767); [lia |].
    destruct (Z.geb_spec r 0x8000); lia.
  - destruct (Z.geb_spec r 0x8000); lia.
  - destruct (Z.gtb_spec r 32767); [| lia].
    destruct (Z.geb_spec r 0x8000); lia.
Qed.

Lemma sign_correct_off_by_one_witness :
  0 <= 40000 <= 65535
  /\ sign_correct 40000 = -25535
  /\ _to_signed16 40000 = -25536.
Proof.
  split; [lia |].
  destruct (sign_correct_off_by_one 40000 ltac:(lia)) as (E & _ & Hneg & _).
  split; [exact E |].
  destruct (Hneg ltac:(lia)) as [_ E1]. rewrite E in E1. simpl in E1. lia.
Defined.

End Ads1115Facts.

(** ** Relay controller *)

Module RelayFacts.
Import Relay.

(** Without a backend [relay_setup] returns before touching the globals. *)
Lemma relay_setup_skipped (cfg : RelayCfg) (t : Q) (w : World) :
  GPIO_BACKEND (fst w) = None \/ mode_gpio cfg = false ->
  relay_setup cfg t w = w.
Proof.
  unfold relay_setup. intros [H | H]; rewrite H; [reflexivity |].
  destruct (GPIO_BACKEND (fst w)); reflexivity.
Qed.

(** C9, as stated, fails: at process start on a board without GPIO backend
    the tracked state stays unknown after [relay_setup]. *)
Lemma relay_setup_without_backend_stays_unknown :
  RELAY_STATE (snd (relay_setup default_cfg 12 (no_gpio, initial_globals))) = None
  /\ RELAY_STATE (snd (relay_setup default_cfg 12 (no_gpio, initial_globals)))
     <> Some false.
Proof. split; [reflexivity | discriminate]. Qed.

(** C9, amended. When a GPIO backend is available and the relay mode is
    "gpio", [relay_setup] sets the tracked state to OFF and stamps the toggle
    time, whatever the previous physical level, the previous tracked state and
    the outcome of the hardware call; without a backend, or in another mode,
    it is skipped and leaves the state as it was. *)
Theorem relay_setup_forces_off_with_backend (cfg : RelayCfg) (t : Q) (w : World) :
  (GPIO_BACKEND (fst w) <> None /\ mode_gpio cfg = true ->
     RELAY_STATE (snd (relay_setup cfg t w)) = Some false
     /\ RELAY_LAST_TOGGLE (snd (relay_setup cfg t w)) = t)
  /\ (GPIO_BACKEND (fst w) = None \/ mode_gpio cfg = false ->
     relay_setup cfg t w = w).
Proof.
  split.
  - intros [Hb Hm]. unfold relay_setup.
    destruct (GPIO_BACKEND (fst w)) as [b |]; [| congruence].
    rewrite Hm. simpl. split; reflexivity.
  - apply relay_setup_skipped.
Qed.

Lemma relay_setup_forces_off_with_backend_witness :
  RELAY_STATE (snd (relay_setup default_cfg 12 (rpi_gpio, initial_globals))) = Some false
  /\ relay_setup default_cfg 12 (no_gpio, initial_globals) = (no_gpio, initial_globals).
Proof.
  split.
  - apply (relay_setup_forces_off_with_backend default_cfg 12 (rpi_gpio, initial_globals)).
    split; [discriminate | reflexivity].
  - apply (relay_setup_forces_off_with_backend default_cfg 12 (no_gpio, initial_globals)).
    left. reflexivity.
Defined.

(** With a backend the line is driven to the level that means OFF. *)
Lemma relay_setup_drives_off_level (cfg : RelayCfg) (t : Q) (w : World) :
  GPIO_BACKEND (fst w) <> None -> mode_gpio cfg = true -> gpio_fault (fst w) = false ->
  level (fst (relay_setup cfg t w)) = negb (active_high cfg).
Proof.
  intros Hb Hm Hf. unfold relay_setup, _gpio_setup_output.
  destruct (GPIO_BACKEND (fst w)) as [[|] |]; [| | congruence];
    rewrite Hm, Hf; simpl; destruct (active_high cfg); reflexivity.
Qed.

(** [relay_auto_step] either leaves everything as it was, or applies a
    transition after the anti-chatter delay and stamps it. *)
Lemma relay_auto_step_cases (cfg : RelayCfg) (v : option Q) (now t_apply : Q) (w : World) :
  relay_auto_step cfg v now t_apply w = (w, None)
  \/ exists b,
       relay_auto_step cfg v now t_apply w = (relay_apply cfg b t_apply w, Some b)
       /\ RELAY_STATE (snd w) <> Some b
       /\ (inject_Z (Z.max 0 (min_toggle_sec cfg)) <= now - RELAY_LAST_TOGGLE (snd w))%Q.
Proof.
  unfold relay_auto_step.
  destruct (enabled cfg); simpl; [| left; reflexivity].
  destruct v as [v |]; [| left; reflexivity].
  destruct (RELAY_STATE (snd w)) as [c |] eqn:Hcur.
  - destruct (negb c && Qle_bool v (on_v cfg)) eqn:H1.
    + destruct c; simpl in H1; [discriminate |]. simpl.
      destruct (Qgeb (now - RELAY_LAST_TOGGLE (snd w))
                  (inject_Z (Z.max 0 (min_toggle_sec cfg)))) eqn:Hgap;
        [| left; reflexivity].
      right. exists true. repeat split; [discriminate | apply Qgeb_ge, Hgap].
    + destruct (c && Qgeb v (off_v cfg)) eqn:H2.
      * destruct c; simpl in H2; [| discriminate]. simpl.
        destruct (Qgeb (now - RELAY_LAST_TOGGLE (snd w))
                    (inject_Z (Z.max 0 (min_toggle_sec cfg)))) eqn:Hgap;
          [| left; reflexivity].
        right. exists false. repeat split; [discriminate | apply Qgeb_ge, Hgap].
      * simpl. rewrite eqb_reflx. simpl. left. reflexivity.
  - destruct (Qle_bool v (on_v cfg)); [| destruct (Qgeb v (off_v cfg))];
      simpl; try (left; reflexivity).
    all: destruct (Qgeb (now - RELAY_LAST_TOGGLE (snd w))
                     (inject_Z (Z.max 0 (min_toggle_sec cfg)))) eqn:Hgap;
      [| left; reflexivity].
    + right. exists true. repeat split; [discriminate | apply Qgeb_ge, Hgap].
    + right. exists false. repeat split; [discriminate | apply Qgeb_ge, Hgap].
Qed.

Lemma relay_apply_globals (cfg : RelayCfg) (b : bool) (t : Q) (w : World) :
  RELAY_STATE (snd (relay_apply cfg b t w)) = Some b
  /\ RELAY_LAST_TOGGLE (snd (relay_apply cfg b t w)) = t.
Proof. split; reflexivity. Qed.

Lemma run_cons (cfg : RelayCfg) (k : Tick) (rest : list Tick) (w : World) :
  run cfg (k :: rest) w =
  let r := relay_auto_step cfg (tick_v k) (tick_now k) (tick_apply k) w in
  (fst (run cfg rest (fst r)),
   match snd r with
   | Some b => (tick_apply k, b) :: snd (run cfg rest (fst r))
   | None => snd (run cfg rest (fst r))
   end).
Proof.
  simpl. destruct (relay_auto_step _ _ _ _ w) as [w1 applied].
  simpl. destruct (run cfg rest w1) as [w2 log]. reflexivity.
Qed.

(** The log of a run is spaced by the anti-chatter delay, counted from the
    toggle time the run starts with. *)
Lemma run_spaced (cfg : RelayCfg) (ticks : list Tick) :
  clock_ok ticks ->
  forall w : World,
    spaced (inject_Z (Z.max 0 (min_toggle_sec cfg))) (RELAY_LAST_TOGGLE (snd w))
      (fst <$> snd (run cfg ticks w)).
Proof.
  induction 1 as [| k rest Hk Hrest IH]; intros w; [exact I |].
  rewrite run_cons.
  destruct (relay_auto_step_cases cfg (tick_v k) (tick_now k) (tick_apply k) w)
    as [E | (b & E & _ & Hgap)]; rewrite E; simpl.
  - apply IH.
  - split.
    + lra.
    + apply (IH (relay_apply cfg b (tick_apply k) w)).
Qed.

(** From consecutive spacing to the distance between any two times. *)
Lemma spaced_all (gap : Q) :
  (0 <= gap)%Q ->
  forall (times : list Q) (prev : Q),
    spaced gap prev times ->
    forall (i : nat) (ti : Q), times !! i = Some ti -> (gap <= ti - prev)%Q.
Proof.
  intros Hgap. induction times as [| t rest IH]; intros prev Hsp i ti Hi.
  - destruct i; discriminate.
  - destruct Hsp as [Ht Hsp]. destruct i as [| i]; simpl in Hi.
    + injection Hi as <-. exact Ht.
    + specialize (IH t Hsp i ti Hi). lra.
Qed.

Lemma spaced_pairwise (gap : Q) :
  (0 <= gap)%Q ->
  forall (times : list Q) (prev : Q),
    spaced gap prev times ->
    forall (i j : nat) (ti tj : Q),
      (i < j)%nat -> times !! i = Some ti -> times !! j = Some tj ->
      (gap <= tj - ti)%Q.
Proof.
  intros Hgap. induction times as [| t rest IH]; intros prev Hsp i j ti tj Hij Hi Hj.
  - destruct i; discriminate.
  - destruct Hsp as [Ht Hsp]. destruct j as [| j]; [lia |].
    destruct i as [| i]; simpl in Hi, Hj.
    + injection Hi as <-. exact (spaced_all gap Hgap rest t Hsp j tj Hj).
    + apply (IH t Hsp i j ti tj); [lia | exact Hi | exact Hj].
Qed.

Lemma min_gap_bounds (m : Z) :
  (0 <= inject_Z (Z.max 0 m))%Q /\ (inject_Z m <= inject_Z (Z.max 0 m))%Q.
Proof.
  split.
  - change 0%Q with (inject_Z 0). rewrite <- Zle_Qle. lia.
  - rewrite <- Zle_Qle. lia.
Qed.

(** C2. Whatever voltages the controller is fed, two applied transitions are
    never less than [min_toggle_sec] apart, and none comes earlier than
    [min_toggle_sec] after the toggle time the run started with. *)
Theorem relay_never_toggles_twice_within_min_gap
    (cfg : RelayCfg) (ticks : list Tick) (w : World) (Hclk : clock_ok ticks) :
  let times := fst <$> snd (run cfg ticks w) in
  (forall (i j : nat) (ti tj : Q),
      (i < j)%nat -> times !! i = Some ti -> times !! j = Some tj ->
      (inject_Z (min_toggle_sec cfg) <= tj - ti)%Q)
  /\ (forall (i : nat) (ti : Q),
        times !! i = Some ti ->
        (inject_Z (min_toggle_sec cfg) <= ti - RELAY_LAST_TOGGLE (snd w))%Q).
Proof.
  intros times.
  pose proof (run_spaced cfg ticks Hclk w) as Hsp.
  destruct (min_gap_bounds (min_toggle_sec cfg)) as [H0 Hle].
  split.
  - intros i j ti tj Hij Hi Hj.
    pose proof (spaced_pairwise _ H0 _ _ Hsp i j ti tj Hij Hi Hj). lra.
  - intros i ti Hi.
    pose proof (spaced_all _ H0 _ _ Hsp i ti Hi). lra.
Qed.

(** On the chattering trajectory the controller toggles three times only. *)
Example chatter_log :
  snd (run default_cfg chatter_ticks (rpi_gpio, initial_globals))
  = [(10.001%Q, true); (16.001%Q, false); (21.501%Q, true)].
Proof. vm_compute. reflexivity. Qed.

Lemma chatter_clock_ok : clock_ok chatter_ticks.
Proof. repeat constructor; vm_compute; discriminate. Qed.

Lemma relay_never_toggles_twice_within_min_gap_witness :
  clock_ok chatter_ticks
  /\ (inject_Z 5 <= 16.001 - 10.001)%Q.
Proof.
  split; [exact chatter_clock_ok |].
  apply (proj1 (relay_never_toggles_twice_within_min_gap default_cfg chatter_ticks
                  (rpi_gpio, initial_globals) chatter_clock_ok) 0%nat 1%nat);
    [lia | reflexivity | reflexivity].
Defined.

End RelayFacts.

(** ** Time-series store *)

Module StoreFacts.
Import Store.

(** A stored timestamp is never written again. *)
Lemma insert_sample_present (s r : Sample) (tbl : gmap Z Sample) :
  tbl !! timestamp s = Some r -> insert_sample s tbl = tbl.
Proof. intros H. unfold insert_sample. rewrite H. reflexivity. Qed.

Lemma insert_sample_lookup (s : Sample) (tbl : gmap Z Sample) :
  is_Some (insert_sample s tbl !! timestamp s).
Proof.
  unfold insert_sample. destruct (tbl !! timestamp s) as [r |] eqn:E.
  - rewrite E. eauto.
  - rewrite lookup_insert_eq. eauto.
Qed.

(** A first insert of a new timestamp adds exactly one row. *)
Lemma insert_sample_new (s : Sample) (tbl : gmap Z Sample) :
  tbl !! timestamp s = None ->
  size (insert_sample s tbl) = S (size tbl)
  /\ insert_sample s tbl !! timestamp s = Some s.
Proof.
  intros H. unfold insert_sample. rewrite H. split.
  - apply map_size_insert_None, H.
  - apply lookup_insert_eq.
Qed.

(** Every row sits under its own timestamp, from the empty table on. *)
Lemma insert_sample_keys (s : Sample) (tbl : gmap Z Sample) :
  map_Forall (fun k r => timestamp r = k) tbl ->
  map_Forall (fun k r => timestamp r = k) (insert_sample s tbl).
Proof.
  intros H. unfold insert_sample. destruct (tbl !! timestamp s); [exact H |].
  apply map_Forall_insert_2; [reflexivity | exact H].
Qed.

(** Inserting again under a timestamp that was just inserted changes nothing. *)
Lemma insert_sample_again (s1 s2 : Sample) (tbl : gmap Z Sample) :
  timestamp s2 = timestamp s1 ->
  insert_sample s2 (insert_sample s1 tbl) = insert_sample s1 tbl.
Proof.
  intros Hts. destruct (insert_sample_lookup s1 tbl) as [r Hr].
  apply (insert_sample_present s2 r). rewrite Hts. exact Hr.
Qed.

(** C3. A sample whose timestamp was just inserted is ignored: the table,
    its row count and the row stored under that timestamp stay as the first
    insert left them. *)
Theorem second_insert_is_noop (s1 s2 : Sample) (tbl : gmap Z Sample)
    (Hts : timestamp s2 = timestamp s1) :
  let once := insert_sample s1 tbl in
  let twice := insert_sample s2 once in
  twice = once
  /\ size twice = size once
  /\ twice !! timestamp s1 = once !! timestamp s1
  /\ (tbl !! timestamp s1 = None -> twice !! timestamp s1 = Some s1).
Proof.
  intros once twice.
  assert (E : twice = once) by (apply insert_sample_again, Hts).
  rewrite E. repeat split.
  intros Hnew. apply insert_sample_new, Hnew.
Qed.

Lemma second_insert_is_noop_witness :
  let s1 := power_sample 1000 (Some 250%Q) None None None None in
  let s2 := power_sample 1000 (Some 999%Q) None None None None in
  timestamp s2 = timestamp s1
  /\ insert_sample s2 (insert_sample s1 ∅) = insert_sample s1 ∅.
Proof.
  intros s1 s2. split; [reflexivity |].
  apply (second_insert_is_noop s1 s2 ∅). reflexivity.
Defined.

(** The same on the store as [poll_loop] writes it. *)
Lemma poll_store_twice (s1 s2 : Sample) (d : DB) :
  timestamp s2 = timestamp s1 ->
  poll_store s2 (poll_store s1 d) = poll_store s1 d.
Proof.
  intros Hts. unfold poll_store. simpl. f_equal.
  apply insert_sample_again, Hts.
Qed.

(** *** Archival *)

Lemma older_than_delete_older (cutoff : Z) (tbl : gmap Z Sample) :
  older_than cutoff (delete_older cutoff tbl) = ∅.
Proof.
  unfold older_than, delete_older. apply map_empty_filter_2.
  intros i x Hix Hlt. apply map_lookup_filter_Some in Hix as [_ Hge].
  exact (Hge Hlt).
Qed.

Lemma delete_older_idem (cutoff : Z) (tbl : gmap Z Sample) :
  delete_older cutoff (delete_older cutoff tbl) = delete_older cutoff tbl.
Proof.
  unfold delete_older. apply map_filter_filter_r. intros i x _ H. exact H.
Qed.

Lemma delete_older_nothing_old (cutoff : Z) (tbl : gmap Z Sample) :
  older_than cutoff tbl = ∅ -> delete_older cutoff tbl = tbl.
Proof.
  unfold older_than, delete_older. intros H.
  apply map_filter_id. intros i x Hix.
  exact (map_empty_filter_1 _ _ H i x Hix).
Qed.

Lemma group_by_empty {A : Type} (key : A -> Z) (l : list A) :
  group_by key l = ∅ -> l = [].
Proof.
  destruct l as [| x l]; [reflexivity |]. unfold group_by. simpl.
  intros H. exfalso. exact (insert_non_empty _ _ _ H).
Qed.

(** The archive query has no row exactly when no sample is older than the
    cutoff. *)
Lemma archive_query_nil (cutoff : Z) (tbl : gmap Z Sample) :
  archive_query cutoff tbl = [] <-> older_than cutoff tbl = ∅.
Proof.
  unfold archive_query, minute_rows. split.
  - intros H.
    match type of H with
    | merge_sort _ ?l = [] =>
        assert (H' : l = [])
          by (apply Permutation_nil_r; rewrite <- H; symmetry;
              apply merge_sort_Permutation)
    end.
    clear H.
    apply fmap_nil_inv, map_to_list_empty_iff, group_by_empty in H'.
    apply fmap_nil_inv, map_to_list_empty_iff, group_by_empty in H'.
    apply fmap_nil_inv, map_to_list_empty_iff in H'. exact H'.
  - intros ->. rewrite map_to_list_empty. reflexivity.
Qed.

Lemma archive_query_after_trim (cutoff : Z) (tbl : gmap Z Sample) :
  archive_query cutoff (delete_older cutoff tbl) = [].
Proof. apply archive_query_nil, older_than_delete_older. Qed.

(** A run of [archive_and_trim_at] on a store that was just trimmed at the
    same cutoff changes nothing. *)
Lemma archive_and_trim_at_idem (cutoff : Z) (d : DB) :
  archive_and_trim_at cutoff (archive_and_trim_at cutoff d)
  = archive_and_trim_at cutoff d.
Proof.
  unfold archive_and_trim_at. simpl.
  rewrite archive_query_after_trim, delete_older_idem. reflexivity.
Qed.

(** C4. Archival is idempotent. Running [_archive_compute_and_apply] (with
    [apply] set) or [db_archive_and_trim] a second time with the same cutoff,
    and no sample inserted in between, leaves the archive rows and the sample
    rows as the first run left them; the second run counts no row to delete
    and no day to archive. *)
Theorem archive_twice_same_cutoff (cutoff now1 now2 days : Z) (d : DB)
    (Hcut : cutoff_of now2 days = cutoff_of now1 days) :
  let first := _archive_compute_and_apply cutoff true d in
  let second := _archive_compute_and_apply cutoff true (snd first) in
  (archive (snd second) = archive (snd first)
   /\ samples (snd second) = samples (snd first)
   /\ minutes_to_delete (fst second) = 0
   /\ days_to_archive (fst second) = 0)
  /\ db_archive_and_trim now2 days (db_archive_and_trim now1 days d)
     = db_archive_and_trim now1 days d
  /\ size (samples (db_archive_and_trim now2 days (db_archive_and_trim now1 days d)))
     = size (samples (db_archive_and_trim now1 days d)).
Proof.
  intros first second.
  assert (Hold : older_than cutoff (samples (snd first)) = ∅).
  { subst first. unfold _archive_compute_and_apply. simpl.
    destruct (bool_decide (archive_query cutoff (samples d) = [])) eqn:E; simpl.
    - apply bool_decide_eq_true in E. apply archive_query_nil, E.
    - apply older_than_delete_older. }
  assert (Hrows : archive_query cutoff (samples (snd first)) = [])
    by (apply archive_query_nil, Hold).
  assert (Hsecond : second
            = ({| minutes_to_delete := 0; days_to_archive := 0 |}, snd first)).
  { subst second. unfold _archive_compute_and_apply.
    rewrite Hrows, Hold, map_size_empty. reflexivity. }
  assert (Htrim : db_archive_and_trim now2 days (db_archive_and_trim now1 days d)
                  = db_archive_and_trim now1 days d).
  { unfold db_archive_and_trim. rewrite Hcut. apply archive_and_trim_at_idem. }
  rewrite Hsecond, Htrim. simpl. repeat split.
Qed.

Lemma archive_twice_same_cutoff_witness :
  cutoff_of 3000000 30 = cutoff_of 2999000 30
  /\ db_archive_and_trim 3000000 30 (db_archive_and_trim 2999000 30 archive_demo)
     = db_archive_and_trim 2999000 30 archive_demo.
Proof.
  split; [reflexivity |].
  apply (archive_twice_same_cutoff 0 2999000 3000000 30 archive_demo). reflexivity.
Defined.

(** The first run on the demonstration store archives two days and removes
    the three old samples; the sample of the current period stays. *)
Example archive_demo_first_run :
  fst (_archive_compute_and_apply 345600 true archive_demo)
  = {| minutes_to_delete := 3; days_to_archive := 2 |}
  /\ size (samples (snd (_archive_compute_and_apply 345600 true archive_demo))) = 1%nat
  /\ size (archive (snd (_archive_compute_and_apply 345600 true archive_demo))) = 2%nat.
Proof. vm_compute. repeat split. Qed.

End StoreFacts.

(** ** Battery energy counter *)

Module BatteryFacts.
Import Battery.

(** The counter chosen as latest is a row of the table, and no row of type
    daily_net starts later. *)
Lemma latest_of_spec (rows : list Counter) :
  match latest_of rows with
  | Some c => In c rows /\ Forall (fun x => start_timestamp x <= start_timestamp c) rows
  | None => rows = []
  end.
Proof.
  induction rows as [| x rest IH]; simpl; [reflexivity |].
  destruct (latest_of rest) as [d |].
  - destruct IH as [Hin Hall].
    destruct (Z.ltb_spec (start_timestamp x) (start_timestamp d)) as [Hle | Hlt].
    + split; [right; exact Hin | constructor; [lia | exact Hall]].
    + split; [left; reflexivity |].
      constructor; [lia |].
      eapply Forall_impl; [exact Hall |]. simpl. intros a Ha. lia.
  - subst rest. split; [left; reflexivity | constructor; [lia | constructor]].
Qed.

Lemma latest_counter_In (tbl : Table) (c : Counter) :
  latest_counter tbl = Some c -> In c tbl.
Proof.
  unfold latest_counter. intros H.
  pose proof (latest_of_spec (List.filter (fun c => is_daily_net (counter_type c)) tbl)) as S.
  rewrite H in S. destruct S as [Hin _].
  apply filter_In in Hin. tauto.
Qed.

(** Rewriting rows without touching their type or start time does not change
    which row is the latest. *)
Lemma latest_of_map (g : Counter -> Counter) (rows : list Counter) :
  (forall c, start_timestamp (g c) = start_timestamp c) ->
  latest_of (List.map g rows) = option_map g (latest_of rows).
Proof.
  intros Hs. induction rows as [| x rest IH]; simpl; [reflexivity |].
  rewrite IH. destruct (latest_of rest) as [d |]; simpl; [| reflexivity].
  rewrite !Hs. destruct (start_timestamp x <? start_timestamp d); reflexivity.
Qed.

Lemma filter_map_type (g : Counter -> Counter) (tbl : Table) :
  (forall c, counter_type (g c) = counter_type c) ->
  List.filter (fun c => is_daily_net (counter_type c)) (List.map g tbl)
  = List.map g (List.filter (fun c => is_daily_net (counter_type c)) tbl).
Proof.
  intros Ht. induction tbl as [| x rest IH]; simpl; [reflexivity |].
  rewrite Ht, IH. destruct (is_daily_net (counter_type x)); reflexivity.
Qed.

Lemma latest_counter_map (g : Counter -> Counter) (tbl : Table) :
  (forall c, start_timestamp (g c) = start_timestamp c) ->
  (forall c, counter_type (g c) = counter_type c) ->
  latest_counter (List.map g tbl) = option_map g (latest_counter tbl).
Proof.
  intros Hs Ht. unfold latest_counter.
  rewrite filter_map_type by exact Ht. apply latest_of_map, Hs.
Qed.

Lemma latest_update_where_id (f : Counter -> Counter) (tbl : Table) (c : Counter) :
  (forall x, start_timestamp (f x) = start_timestamp x) ->
  (forall x, counter_type (f x) = counter_type x) ->
  latest_counter tbl = Some c ->
  latest_counter (update_where_id (id c) f tbl) = Some (f c).
Proof.
  intros Hs Ht Hc. unfold update_where_id.
  rewrite latest_counter_map.
  - rewrite Hc. simpl. rewrite Z.eqb_refl. reflexivity.
  - intros x. destruct (id x =? id c); [apply Hs | reflexivity].
  - intros x. destruct (id x =? id c); [apply Ht | reflexivity].
Qed.

(** With a counter in the table, an update is one of the two UPDATE
    statements on the latest counter, or nothing. *)
Lemma update_existing (POLL_S : Q) (now : Z) (w v : Q) (tbl : Table) (c : Counter) :
  latest_counter tbl = Some c ->
  update_battery_counter POLL_S now (Some w) (Some v) tbl
  = if Qltb 0 w then update_where_id (id c) (charge_row (energy_wh POLL_S w)) tbl
    else if Qltb w 0
         then update_where_id (id c) (discharge_row (Qabs (energy_wh POLL_S w))) tbl
         else tbl.
Proof.
  intros Hc. unfold update_battery_counter, get_current_battery_counter.
  rewrite Hc. reflexivity.
Qed.

Lemma update_latest (POLL_S : Q) (now : Z) (w v : Q) (tbl : Table) (c : Counter) :
  latest_counter tbl = Some c ->
  latest_counter (update_battery_counter POLL_S now (Some w) (Some v) tbl)
  = Some (if Qltb 0 w then charge_row (energy_wh POLL_S w) c
          else if Qltb w 0 then discharge_row (Qabs (energy_wh POLL_S w)) c
               else c).
Proof.
  intros Hc. rewrite (update_existing POLL_S now w v tbl c Hc).
  destruct (Qltb 0 w); [| destruct (Qltb w 0)].
  - apply latest_update_where_id; [reflexivity | reflexivity | exact Hc].
  - apply latest_update_where_id; [reflexivity | reflexivity | exact Hc].
  - exact Hc.
Qed.


Lemma charge_row_net_ok (e : Q) (c : Counter) : net_ok (charge_row e c).
Proof. reflexivity. Qed.

Lemma discharge_row_net_ok (e : Q) (c : Counter) : net_ok (discharge_row e c).
Proof. reflexivity. Qed.

(** One update keeps the latest counter in place, open, with its totals
    related. *)
Lemma update_keeps_net (POLL_S : Q) (u : Reading) (tbl : Table) (c : Counter) :
  latest_counter tbl = Some c -> net_ok c /\ reset_reason c = None ->
  exists c',
    latest_counter
      (update_battery_counter POLL_S (at_time u) (reading_w u) (reading_v u) tbl)
    = Some c' /\ net_ok c' /\ reset_reason c' = None.
Proof.
  intros Hc Hok.
  destruct (reading_w u) as [w |]; [| exists c; split; [exact Hc | exact Hok]].
  destruct (reading_v u) as [v |]; [| exists c; split; [exact Hc | exact Hok]].
  rewrite (update_latest POLL_S (at_time u) w v tbl c Hc).
  eexists. split; [reflexivity |].
  destruct (Qltb 0 w); [split; [apply charge_row_net_ok | apply Hok] |].
  destruct (Qltb w 0); [split; [apply discharge_row_net_ok | apply Hok] | exact Hok].
Qed.

Lemma run_updates_keeps_net (POLL_S : Q) (ups : list Reading) :
  forall (tbl : Table) (c : Counter),
    latest_counter tbl = Some c -> net_ok c /\ reset_reason c = None ->
    exists c',
      latest_counter (run_updates POLL_S ups tbl) = Some c'
      /\ net_ok c' /\ reset_reason c' = None.
Proof.
  induction ups as [| u rest IH]; intros tbl c Hc Hok.
  - exists c. split; [exact Hc | exact Hok].
  - destruct (update_keeps_net POLL_S u tbl c Hc Hok) as (c1 & Hc1 & Hok1).
    exact (IH _ c1 Hc1 Hok1).
Qed.















(** C1. Two resets stamped with the same second, then two updates (1 Wh of
    charge, 0.5 Wh of discharge): the open counter, created and zeroed by
    the second reset, receives nothing; both updates are booked on the
    counter that this reset closed, which [get_current_battery_counter]
    still returns, and the net figure read for the inverter state, taken
    from the row with the largest id, stays 0. *)
Theorem same_second_resets_book_on_closed_counter :
  let tbl := fst (run None 5 same_second_resets []) in
  open_counters tbl = [fresh_counter 3 100]
  /\ (exists c,
        latest_counter tbl = Some c
        /\ id c = 2
        /\ start_timestamp c = 100
        /\ reset_reason c = Some (reason_text "manual")
        /\ (total_batt_in_Wh c == 1)%Q
        /\ (total_batt_out_Wh c == 0.5)%Q
        /\ (total_batt_net_Wh c == 0.5)%Q)
  /\ newest_by_id tbl = Some (fresh_counter 3 100)
  /\ (battery_net_wh tbl == 0)%Q.
Proof.
  vm_compute. split; [reflexivity |]. split; [| split; reflexivity].
  eexists. split; [reflexivity |]. repeat split.
Qed.

(** The same happens when the reset is stamped earlier than the start of
    the counter it closes: the update that follows is booked on the closed
    counter. *)
Example reset_after_clock_set_back :
  let tbl := fst (run None 5 clock_set_back []) in
  open_counters tbl = [fresh_counter 2 50]
  /\ exists c,
       latest_counter tbl = Some c
       /\ id c = 1
       /\ reset_reason c = Some (reason_text "manual")
       /\ (total_batt_in_Wh c == 2)%Q.
Proof.
  vm_compute. split; [reflexivity |].
  eexists. split; [reflexivity |]. repeat split.
Qed.

(** A day that alternates 500 W of charge and 500 W of discharge ends with
    equal charge and discharge totals and a net total of zero. *)
Example alternating_day_balances :
  match latest_counter (run_updates 5 (alternating 144) (snd (insert_counter 0 []))) with
  | Some c =>
      (total_batt_in_Wh c == total_batt_out_Wh c)%Q
      /\ (total_batt_net_Wh c == 0)%Q
      /\ (total_batt_in_Wh c == 100)%Q
  | None => False
  end.
Proof. vm_compute. repeat split. Qed.

(** *** Automatic and manual resets *)
















(** On the day of the deep discharge three automatic resets are made: the
    cycle five seconds after the first one, and the cycle less than an hour
    after the manual reset, are held back. *)
Example discharge_events_log :
  snd (run None 5 discharge_events []) = [7200; 10900; 14500].
Proof. vm_compute. reflexivity. Qed.


End BatteryFacts.

(** ** Daily analyzer *)

Module AnalyzerFacts.
Import Analyzer.

(** *** Significant production *)

Lemma ts_hour_range (ts : Z) : 0 <= ts_hour ts < 24.
Proof.
  unfold ts_hour.
  pose proof (Z.mod_pos_bound ts 86400 ltac:(lia)) as H.
  split.
  - apply Z.div_pos; lia.
  - apply Z.div_lt_upper_bound; lia.
Qed.

Lemma pv_above_100_iff (s : Sample) :
  pv_above_100 s = true <-> exists p, pv_w s = Some p /\ (100 < p)%Q.
Proof.
  unfold pv_above_100. destruct (pv_w s) as [p |].
  - rewrite andb_true_iff, negb_true_iff, Qltb_lt. split.
    + intros [_ H]. exists p. split; [reflexivity | exact H].
    + intros (q & [= <-] & H). split; [| exact H].
      apply not_true_iff_false. intros E. apply Qeq_bool_iff in E. lra.
  - split; [discriminate | intros (q & [=] & _)].
Qed.

(** What the code counts as significant: more than 100 W, and a local hour
    from 6 to 20, both included. *)
Lemma is_significant_iff (s : Sample) :
  is_significant s = true
  <-> (exists p, pv_w s = Some p /\ (100 < p)%Q)
      /\ 6 <= ts_hour (timestamp s) <= 20.
Proof.
  rewrite <- pv_above_100_iff. unfold is_significant, pv_above_100.
  unfold SIGNIFICANT_PRODUCTION_THRESHOLD, MIN_SUNRISE_HOUR, MAX_SUNSET_HOUR.
  destruct (pv_w s) as [p |].
  - rewrite !andb_true_iff, Z.leb_le, Z.leb_le. tauto.
  - split; [discriminate | intros [[=] _]].
Qed.

(** The summary is computed from the significant samples alone. *)
Lemma analyze_pv_only_significant (samples : list Sample) :
  _analyze_pv samples = _analyze_pv (significant_pv_samples samples).
Proof.
  unfold _analyze_pv, significant_pv_samples.
  assert (E : List.filter is_significant (List.filter is_significant samples)
              = List.filter is_significant samples).
  { induction samples as [| x l IH]; simpl; [reflexivity |].
    destruct (is_significant x) eqn:Hx; simpl; [rewrite Hx, IH |]; auto. }
  rewrite E. reflexivity.
Qed.

(** C6, at the failing input. A sample of 500 W taken at 20:30 lies outside
    the hours from 6 to 20 (20 excluded), yet [_analyze_pv] counts it: the
    summary reports production, with this sample as start, end and peak and
    with its energy in the total. *)
Theorem evening_sample_is_counted :
  ts_hour (timestamp evening_sample) = 20
  /\ claimed_hour_window (timestamp evening_sample) = false
  /\ is_significant evening_sample = true
  /\ match _analyze_pv [evening_sample] with
     | Some r =>
         (total_energy_kwh r == 0.042)%Q
         /\ production_start r = timestamp evening_sample
         /\ production_end r = timestamp evening_sample
         /\ peak_time r = timestamp evening_sample
         /\ (peak_power_kw r == 0.5)%Q
     | None => False
     end.
Proof. vm_compute. repeat split. Qed.

(** *** PV production at night *)

Lemma in_night_hours_iff (ts : Z) :
  in_night_hours ts = true <-> 22 <= ts_hour ts \/ ts_hour ts < 6.
Proof.
  pose proof (ts_hour_range ts) as Hr. unfold in_night_hours, night_hours.
  rewrite existsb_exists. split.
  - intros (h & Hin & Heq). apply Z.eqb_eq in Heq. simpl in Hin.
    intuition lia.
  - intros H. exists (ts_hour ts). split; [| apply Z.eqb_refl].
    simpl. lia.
Qed.

Lemma night_pv_samples_spec (samples : list Sample) (s : Sample) :
  In s (night_pv_samples samples)
  <-> In s samples
      /\ (exists p, pv_w s = Some p /\ (100 < p)%Q)
      /\ (22 <= ts_hour (timestamp s) \/ ts_hour (timestamp s) < 6).
Proof.
  unfold night_pv_samples.
  rewrite filter_In, andb_true_iff, pv_above_100_iff, in_night_hours_iff. tauto.
Qed.

Lemma filter_none {A : Type} (f : A -> bool) (l : list A) :
  Forall (fun a => f a = false) l -> List.filter f l = [].
Proof.
  induction 1 as [| x l Hx _ IH]; simpl; [reflexivity |]. rewrite Hx. exact IH.
Qed.

Lemma power_peaks_not_night (field : Field) (aggregated : list Sample) :
  Forall (fun a => is_night_anomaly a = false) (power_peaks field aggregated).
Proof.
  unfold power_peaks.
  destruct (is_nil _); [constructor |].
  match goal with |- context [if ?c then [] else _] => destruct c end; [constructor |].
  apply Forall_fmap, Forall_forall. intros s _. reflexivity.
Qed.

Lemma change_between_not_night (prev curr : Sample) (f : Field) :
  Forall (fun a => is_night_anomaly a = false) (change_between prev curr f).
Proof.
  unfold change_between.
  destruct (get f prev), (get f curr); try constructor.
  destruct (Qltb 8000 _); repeat constructor.
Qed.

Lemma sudden_changes_not_night (rest : list Sample) :
  forall prev, Forall (fun a => is_night_anomaly a = false) (sudden_changes prev rest).
Proof.
  induction rest as [| curr rest IH]; intros prev; [constructor |].
  cbn [sudden_changes]. apply Forall_app. split; [| apply IH].
  apply Forall_forall. intros a Ha. apply list_elem_of_In, in_flat_map in Ha.
  destruct Ha as (f & _ & Hin).
  pose proof (change_between_not_night prev curr f) as H.
  rewrite Forall_forall in H. apply H, list_elem_of_In, Hin.
Qed.

Lemma night_anomalies_all_night (samples : list Sample) :
  Forall (fun a => is_night_anomaly a = true /\ severity a = medium)
    (_detect_pv_night_production samples).
Proof.
  unfold _detect_pv_night_production.
  destruct (night_pv_samples samples); [constructor |].
  destruct (Qltb 0.5 _); repeat constructor.
Qed.

Lemma filter_all {A : Type} (f : A -> bool) (l : list A) :
  Forall (fun a => f a = true) l -> List.filter f l = l.
Proof.
  induction 1 as [| x l Hx _ IH]; simpl; [reflexivity |]. rewrite Hx, IH. reflexivity.
Qed.

(** The night anomaly is raised exactly when the sum that
    [_detect_pv_night_production] forms over the night rows (PV power above
    100 W, local hour from 22 to 6), five minutes for each row, exceeds 0.5;
    the report of the day then holds exactly one entry of type
    [pv_night_production_anomaly], of medium severity, and none otherwise. *)
Lemma night_anomaly_follows_row_sum (samples : list Sample) :
  let night := night_pv_samples samples in
  let kwh := _calculate_energy_from_power night f_pv_w 5 in
  let found := List.filter is_night_anomaly (anomalies (_detect_anomalies samples)) in
  (forall s, In s night
             <-> In s samples
                 /\ (exists p, pv_w s = Some p /\ (100 < p)%Q)
                 /\ (22 <= ts_hour (timestamp s) \/ ts_hour (timestamp s) < 6))
  /\ found = _detect_pv_night_production samples
  /\ pv_night_anomalies (_detect_anomalies samples) = length found
  /\ ((0.5 < kwh)%Q <-> length found = 1%nat)
  /\ ((kwh <= 0.5)%Q <-> found = [])
  /\ Forall (fun a => severity a = medium) found.
Proof.
  intros night kwh found.
  assert (Hfound : found = _detect_pv_night_production samples).
  { subst found. unfold _detect_anomalies. cbn [anomalies].
    rewrite !List.filter_app.
    rewrite (filter_none is_night_anomaly (flat_map _ power_fields)).
    2:{ apply Forall_forall. intros a Ha. apply list_elem_of_In, in_flat_map in Ha.
        destruct Ha as (f & _ & Hin).
        pose proof (power_peaks_not_night f (_aggregate_samples_by_interval samples 5)) as H.
        rewrite Forall_forall in H. apply H, list_elem_of_In, Hin. }
    rewrite (filter_none is_night_anomaly
               (match _aggregate_samples_by_interval samples 5 with
                | [] => []
                | first :: rest => sudden_changes first rest
                end)).
    2:{ destruct (_aggregate_samples_by_interval samples 5); [constructor |].
        apply sudden_changes_not_night. }
    simpl. apply filter_all.
    eapply Forall_impl; [apply night_anomalies_all_night |]. simpl. tauto. }
  split; [apply night_pv_samples_spec |].
  split; [exact Hfound |].
  split; [rewrite Hfound; reflexivity |].
  rewrite Hfound. subst kwh night. unfold _detect_pv_night_production.
  destruct (night_pv_samples samples) as [| first others].
  - split; [| split; [| constructor]].
    + split; [intros H; vm_compute in H; discriminate | discriminate].
    + split; [reflexivity | intros _; vm_compute; discriminate].
  - destruct (Qltb 0.5 (_calculate_energy_from_power (first :: others) f_pv_w 5)) eqn:E.
    + apply Qltb_lt in E. split; [| split; [| repeat constructor]].
      * split; [reflexivity | intros _; exact E].
      * split; [intros H; lra | discriminate].
    + apply Qltb_ge in E. split; [| split; [| constructor]].
      * split; [intros H; lra | discriminate].
      * split; [reflexivity | intros _; exact E].
Qed.

(** Six samples of 1200 W at night, five minutes apart, amount to 0.6 kWh
    and raise one anomaly; three of them, 0.3 kWh, raise none. *)
Example night_injection_06 :
  (_calculate_energy_from_power (night_injection 6) f_pv_w 5 == 0.6)%Q
  /\ _detect_pv_night_production (night_injection 6)
     = [pv_night_production_anomaly 82800 (600 # 1000) 6 (1200 # 1000)].
Proof. vm_compute. split; reflexivity. Qed.

Example night_injection_03 :
  (_calculate_energy_from_power (night_injection 3) f_pv_w 5 == 0.3)%Q
  /\ _detect_pv_night_production (night_injection 3) = [].
Proof. vm_compute. split; reflexivity. Qed.

(** The night energy is integrated over the samples as they are read, each
    one standing for five minutes: two samples of 3500 W taken five seconds
    apart already count for 0.583 kWh. *)
Example night_burst_counts_each_sample :
  _aggregate_samples_by_interval night_burst 5 = [pv_only (23 * 3600) (7000 # 2)]
  /\ _detect_pv_night_production night_burst
     = [pv_night_production_anomaly 82800 (583 # 1000) 2 (3500 # 1000)].
Proof. vm_compute. split; reflexivity. Qed.

(** C8. A quarter of an hour at 1200 W between 23:00 and 23:15, read every
    five seconds, is 0.3 kWh of PV energy at night, and 0.3 kWh is what the
    5-minute aggregation used by the other analyses gives on these rows;
    [_detect_pv_night_production] integrates the rows as they are read, five
    minutes for each of the 180, finds 18 kWh and raises the anomaly. *)
Theorem quarter_hour_at_night_is_flagged :
  length quarter_hour_at_night = 180%nat
  /\ night_pv_samples quarter_hour_at_night = quarter_hour_at_night
  /\ (_calculate_energy_from_power
        (_aggregate_samples_by_interval quarter_hour_at_night 5) f_pv_w 5 == 0.3)%Q
  /\ (_calculate_energy_from_power quarter_hour_at_night f_pv_w 5 == 18)%Q
  /\ _detect_pv_night_production quarter_hour_at_night
     = [pv_night_production_anomaly 82800 (18000 # 1000) 180 (1200 # 1000)]
  /\ pv_night_anomalies (_detect_anomalies quarter_hour_at_night) = 1%nat.
Proof. vm_compute. repeat split. Qed.

(** *** Power peaks *)

Lemma fold_Qplus_nonneg (l : list Q) :
  Forall (fun x => (0 <= x)%Q) l ->
  forall acc : Q, (0 <= acc)%Q -> (0 <= fold_left Qplus l acc)%Q.
Proof.
  induction 1 as [| x l Hx _ IH]; intros acc Hacc; simpl; [exact Hacc |].
  apply IH. lra.
Qed.

Lemma variance_nonneg (l : list Q) : (0 <= variance l)%Q.
Proof.
  unfold variance, py_sum, py_len, Qdiv.
  apply Qmult_le_0_compat.
  - apply fold_Qplus_nonneg; [| lra].
    apply Forall_fmap, Forall_forall. intros x _. cbv beta.
    set (d := (x - mean l)%Q).
    destruct (Qlt_le_dec d 0) as [Hneg | Hpos].
    + assert (E : (d * d == (- d) * (- d))%Q) by ring.
      apply (Qle_trans _ ((- d) * (- d))).
      * apply Qmult_le_0_compat; lra.
      * apply Qle_lteq. right. symmetry. exact E.
    + apply Qmult_le_0_compat; exact Hpos.
  - apply Qinv_le_0_compat. change 0%Q with (inject_Z 0).
    rewrite <- Zle_Qle. lia.
Qed.

Module SqrtReading.
Import Reals Qreals.
Local Open Scope R_scope.

Lemma gt_sigma_iff (k v m var : R) :
  0 <= k -> 0 <= var ->
  (v > m + k * sqrt var <-> 0 < v - m /\ k * k * var < (v - m) * (v - m)).
Proof.
  intros Hk Hvar.
  pose proof (sqrt_pos var) as Hs.
  pose proof (sqrt_sqrt var Hvar) as Hss.
  assert (Hks : 0 <= k * sqrt var) by (apply Rmult_le_pos; assumption).
  assert (Hsq : k * k * var = (k * sqrt var) * (k * sqrt var)).
  { rewrite <- Hss at 1. ring. }
  rewrite Hsq. split.
  - intros H. split; [Lra.lra |].
    apply Rmult_le_0_lt_compat; Lra.lra.
  - intros [Hpos Hlt].
    destruct (Rlt_le_dec (k * sqrt var) (v - m)) as [Hgt | Hle]; [Lra.lra |].
    exfalso.
    assert ((v - m) * (v - m) <= (k * sqrt var) * (k * sqrt var))
      by (apply Rmult_le_compat; Lra.lra).
    Lra.lra.
Qed.

(** The test [above_sigma] decides [v > mean_val + k * std_dev], the deviation
    being the real square root of the variance. *)
Lemma above_sigma_sqrt (k v m var : Q) :
  (0 <= k)%Q -> (0 <= var)%Q ->
  above_sigma k v m var = true <-> Q2R v > Q2R m + Q2R k * sqrt (Q2R var).
Proof.
  intros Hk Hvar. unfold above_sigma.
  rewrite andb_true_iff, !Qltb_lt.
  rewrite gt_sigma_iff.
  - rewrite <- !Q2R_minus, <- !Q2R_mult, <- RMicromega.Q2R_0.
    split; intros [H1 H2]; split;
      first [apply Qlt_Rlt; assumption | apply Rlt_Qlt; assumption].
  - rewrite <- RMicromega.Q2R_0. apply Qle_Rle, Hk.
  - rewrite <- RMicromega.Q2R_0. apply Qle_Rle, Hvar.
Qed.

End SqrtReading.

(** A sample is reported as a power peak exactly when it passes the test of
    its channel against the statistics of all the values below 10 kW. *)
Lemma power_peaks_length (field : Field) (aggregated : list Sample) :
  length (power_peaks field aggregated)
  = if is_nil (filtered_values field aggregated) then 0%nat
    else if match field with
            | f_pv_w =>
                is_nil (List.filter (fun v => Qltb 100 v) (filtered_values field aggregated))
            | _ => false
            end
         then 0%nat
         else length
                (List.filter
                   (fun s => above_threshold field (get0 field s)
                               (mean (filtered_values field aggregated))
                               (variance (filtered_values field aggregated)))
                   aggregated).
Proof.
  unfold power_peaks.
  destruct (is_nil (filtered_values field aggregated)); [reflexivity |].
  match goal with |- context [if ?c then [] else _] => destruct c end; [reflexivity |].
  apply length_fmap.
Qed.

(** C5, at the failing input. On the dull day the PV statistics are taken over
    all 25 interval values (mean 24 W), the zeros included: the 600 W interval
    exceeds max(mean + 4 sigma, 500 W) and is reported, with medium severity.
    With the statistics restricted to the values above 100 W, as the
    specification words them, the mean is 600 W, the deviation 0, and nothing
    would be reported. *)
Theorem dull_day_peak_uses_unfiltered_statistics :
  let aggregated := _aggregate_samples_by_interval dull_day 5 in
  (mean (filtered_values f_pv_w aggregated) == 24)%Q
  /\ (mean (claimed_stat_values f_pv_w aggregated) == 600)%Q
  /\ power_peaks f_pv_w aggregated = [power_peak f_pv_w 43200 (600 # 1000) medium]
  /\ anomalies (_detect_anomalies dull_day)
     = [power_peak f_pv_w 43200 (600 # 1000) medium]
  /\ List.filter (claimed_flagged f_pv_w aggregated) aggregated = [].
Proof. vm_compute. repeat split. Qed.

End AnalyzerFacts.

(** ** Field-bus registers *)

Module FieldBusFacts.
Import FieldBus.

(** X1. [_to_signed16] undoes the 16-bit wire encoding: a value of
    [-32768 .. 32767] sent as its residue modulo 65536 is read back as
    itself, and every wire value decodes into that range. *)
Theorem to_signed16_round_trip (v : Z) (Hv : -32768 <= v <= 32767) :
  Ads1115._to_signed16 (v mod 65536) = v
  /\ forall x, 0 <= x <= 65535 ->
       -32768 <= Ads1115._to_signed16 x <= 32767
       /\ Ads1115._to_signed16 x mod 65536 = x.
Proof.
  unfold Ads1115._to_signed16. split.
  - destruct (Z_lt_le_dec v 0) as [Hneg | Hpos].
    + replace (v mod 65536) with (v + 65536)
        by (apply Z.mod_unique with (-1); lia).
      destruct (Z.geb_spec (v + 65536) 0x8000); lia.
    + rewrite Z.mod_small by lia.
      destruct (Z.geb_spec v 0x8000); lia.
  - intros x Hx. destruct (Z.geb_spec x 0x8000) as [Hge | Hlt].
    + split; [lia |]. symmetry. apply Z.mod_unique with (-1); lia.
    + split; [lia |]. apply Z.mod_small. lia.
Qed.

Lemma to_signed16_round_trip_witness :
  -32768 <= -300 <= 32767 /\ Ads1115._to_signed16 65236 = -300.
Proof.
  split; [lia |].
  exact (proj1 (to_signed16_round_trip (-300) ltac:(lia))).
Defined.

(** *** Sorting by address *)

Lemma insert_by_addr_perm (r : Reg) (l : list Reg) :
  insert_by_addr r l ≡ₚ r :: l.
Proof.
  induction l as [| x rest IH]; simpl; [reflexivity |].
  destruct (reg_addr r <? reg_addr x); [reflexivity |].
  rewrite IH. apply Permutation_swap.
Qed.

Lemma insert_by_addr_sorted (r : Reg) (l : list Reg) :
  ascending l -> ascending (insert_by_addr r l).
Proof.
  unfold ascending. induction 1 as [| x rest Hs IH Hhd]; simpl.
  - repeat constructor.
  - destruct (Z.ltb_spec (reg_addr r) (reg_addr x)) as [Hlt | Hge].
    + constructor; [constructor; assumption | constructor; lia].
    + constructor; [exact IH |].
      destruct rest as [| y rest']; simpl.
      * constructor. exact Hge.
      * destruct (Z.ltb_spec (reg_addr r) (reg_addr y)); constructor.
        -- exact Hge.
        -- inversion Hhd; assumption.
Qed.

Lemma sorted_by_addr_spec (regs : list Reg) :
  ascending (sorted_by_addr regs) /\ sorted_by_addr regs ≡ₚ regs.
Proof.
  unfold sorted_by_addr.
  assert (G : forall acc, ascending acc ->
              ascending (fold_left (fun a r => insert_by_addr r a) regs acc)
              /\ fold_left (fun a r => insert_by_addr r a) regs acc ≡ₚ acc ++ regs).
  { induction regs as [| r rest IH]; intros acc Hacc; simpl.
    - split; [exact Hacc | rewrite app_nil_r; reflexivity].
    - destruct (IH (insert_by_addr r acc) (insert_by_addr_sorted r acc Hacc))
        as [Hs Hp].
      split; [exact Hs |].
      etransitivity; [exact Hp |].
      etransitivity; [apply Permutation_app_tail, insert_by_addr_perm |].
      simpl. apply Permutation_middle. }
  destruct (G [] ltac:(constructor)) as [Hs Hp]. split; [exact Hs | exact Hp].
Qed.

Lemma ascending_strongly (l : list Reg) :
  ascending l -> StronglySorted (fun a b => reg_addr a <= reg_addr b) l.
Proof.
  apply Sorted_StronglySorted. intros a b c Hab Hbc. lia.
Qed.

Lemma last_addr_snoc (cur : list Reg) (r : Reg) :
  last_addr (cur ++ [r]) = reg_addr r.
Proof. unfold last_addr. rewrite last_snoc. reflexivity. Qed.

Lemma block_ok_single (max_len : Z) (r : Reg) :
  1 <= max_len -> block_ok max_len (reg_addr r, [r]).
Proof.
  intros H. exists r. unfold block_count, last_addr. simpl.
  repeat split; [| lia]. repeat constructor; lia.
Qed.

Lemma block_ok_snoc (max_len s : Z) (cur : list Reg) (r : Reg) :
  block_ok max_len (s, cur) ->
  last_addr cur <= reg_addr r ->
  reg_addr r - s + 1 <= max_len ->
  block_ok max_len (s, cur ++ [r]).
Proof.
  intros (first & Hhd & Hfirst & Hall & _) Hlast Hlen.
  cbn [fst snd] in Hhd, Hfirst, Hall.
  assert (Hs : s <= last_addr cur).
  { destruct cur as [| x cur']; [discriminate |].
    apply Forall_inv in Hall. lia. }
  exists first. unfold block_count. cbn [fst snd]. rewrite last_addr_snoc.
  repeat split; [| exact Hfirst | | lia].
  - destruct cur; [discriminate | exact Hhd].
  - apply Forall_app. split.
    + eapply Forall_impl; [exact Hall |]. cbv beta. intros a Ha. lia.
    + repeat constructor; lia.
Qed.

(** What the loop of [_blocks] keeps: finished blocks are well formed, and
    so is the block under construction. *)
Lemma blocks_loop_spec (max_gap max_len : Z) (Hlen : 1 <= max_len) (items : list Reg) :
  StronglySorted (fun a b => reg_addr a <= reg_addr b) items ->
  forall (out : list (Z * list Reg)) (start : option Z) (cur : list Reg),
    Forall (block_ok max_len) out ->
    match start with
    | Some s => block_ok max_len (s, cur)
                /\ Forall (fun r => last_addr cur <= reg_addr r) items
    | None => cur = []
    end ->
    match blocks_loop max_gap max_len items out start cur with
    | (out', start', cur') =>
        Forall (block_ok max_len) out'
        /\ match start' with
           | Some s => block_ok max_len (s, cur')
           | None => cur' = [] /\ start = None /\ items = []
           end
        /\ concat (snd <$> out') ++ cur' = concat (snd <$> out) ++ cur ++ items
    end.
Proof.
  induction 1 as [| r rest Hrest IH Hhd]; intros out start cur Hout Hcur.
  - simpl. split; [exact Hout |]. split.
    + destruct start; [apply Hcur | repeat split; exact Hcur].
    + rewrite app_nil_r. reflexivity.
  - simpl. destruct start as [s |].
    + destruct Hcur as [Hblk Hnext].
      pose proof (Forall_inv Hnext) as Hr. cbv beta in Hr.
      destruct ((reg_addr r - last_addr cur <=? max_gap)
                && (reg_addr r - s + 1 <=? max_len)) eqn:E.
      * apply andb_true_iff in E as [_ E2]. apply Z.leb_le in E2.
        specialize (IH out (Some s) (cur ++ [r]) Hout).
        destruct (blocks_loop max_gap max_len rest out (Some s) (cur ++ [r]))
          as [[out' start'] cur'].
        destruct IH as (H1 & H2 & H3).
        { split; [apply block_ok_snoc; assumption |].
          rewrite last_addr_snoc. exact Hhd. }
        split; [exact H1 |]. split.
        -- destruct start'; [exact H2 | destruct H2 as (_ & [=] & _)].
        -- rewrite H3, <- !app_assoc. reflexivity.
      * specialize (IH (out ++ [(s, cur)]) (Some (reg_addr r)) [r]).
        destruct (blocks_loop max_gap max_len rest (out ++ [(s, cur)])
                    (Some (reg_addr r)) [r]) as [[out' start'] cur'].
        destruct IH as (H1 & H2 & H3).
        { apply Forall_app. split; [exact Hout | repeat constructor; exact Hblk]. }
        { split; [apply block_ok_single, Hlen | exact Hhd]. }
        split; [exact H1 |]. split.
        -- destruct start'; [exact H2 | destruct H2 as (_ & [=] & _)].
        -- rewrite H3, fmap_app, concat_app. simpl.
           rewrite app_nil_r, <- !app_assoc. reflexivity.
    + subst cur.
      specialize (IH out (Some (reg_addr r)) [r] Hout).
      destruct (blocks_loop max_gap max_len rest out (Some (reg_addr r)) [r])
        as [[out' start'] cur'].
      destruct IH as (H1 & H2 & H3).
      { split; [apply block_ok_single, Hlen | exact Hhd]. }
      split; [exact H1 |]. split.
      * destruct start'; [exact H2 | destruct H2 as (_ & [=] & _)].
      * rewrite H3. reflexivity.
Qed.

Lemma blocks_of_spec (regs : list Reg) (max_gap max_len : Z) :
  1 <= max_len ->
  Forall (block_ok max_len) (blocks_of regs max_gap max_len)
  /\ concat (snd <$> blocks_of regs max_gap max_len) = sorted_by_addr regs.
Proof.
  intros Hlen. unfold blocks_of.
  destruct (sorted_by_addr_spec regs) as [Hsorted _].
  pose proof (blocks_loop_spec max_gap max_len Hlen (sorted_by_addr regs)
                (ascending_strongly _ Hsorted) [] None [] ltac:(constructor) eq_refl)
    as H.
  destruct (blocks_loop max_gap max_len (sorted_by_addr regs) [] None [])
    as [[out start] cur].
  destruct H as (H1 & H2 & H3). simpl in H3. destruct start as [s |].
  - split.
    + apply Forall_app. split; [exact H1 | repeat constructor; exact H2].
    + rewrite fmap_app, concat_app. simpl. rewrite app_nil_r. exact H3.
  - destruct H2 as (-> & _ & _). rewrite app_nil_r in H3. split; assumption.
Qed.

(** X2. [_blocks] splits the register table, sorted by address, into
    consecutive blocks: every register is read once; no block asks for more
    than [max_len] registers; and inside a block the index [addr - start]
    of each register lies within the [count] registers of the answer. *)
Theorem blocks_cover_each_register_once (regs : list Reg) (max_gap max_len : Z)
    (Hlen : 1 <= max_len) :
  let blocks := blocks_of regs max_gap max_len in
  concat (snd <$> blocks) = sorted_by_addr regs
  /\ concat (snd <$> blocks) ≡ₚ regs
  /\ Forall
       (fun b =>
          snd b <> []
          /\ 1 <= block_count (fst b) (snd b) <= max_len
          /\ Forall (fun r => 0 <= reg_addr r - fst b < block_count (fst b) (snd b))
               (snd b))
       blocks.
Proof.
  intros blocks. subst blocks.
  destruct (blocks_of_spec regs max_gap max_len Hlen) as [Hok Hcat].
  split; [exact Hcat |]. split.
  - rewrite Hcat. apply sorted_by_addr_spec.
  - eapply Forall_impl; [exact Hok |]. intros [s cur] (first & Hhd & Hfirst & Hall & Hcnt).
    cbn [fst snd] in *. unfold block_count in *.
    assert (Hne : cur <> []) by (destruct cur; [discriminate | discriminate]).
    assert (Hs : s <= last_addr cur).
    { destruct cur as [| x cur']; [contradiction |]. apply Forall_inv in Hall. lia. }
    split; [exact Hne |]. split; [lia |].
    eapply Forall_impl; [exact Hall |]. cbv beta. intros r Hr. lia.
Qed.

(** The table of the inverter is read in four bulk requests. *)
Example blocks_of_the_inverter :
  (fun b => (fst b, block_count (fst b) (snd b))) <$> _blocks
  = [(202, 3); (210, 11); (223, 1); (225, 4)].
Proof. vm_compute. reflexivity. Qed.

Lemma blocks_cover_each_register_once_witness :
  1 <= 16 /\ concat (snd <$> blocks_of REGS 1 16) ≡ₚ REGS.
Proof.
  split; [lia |].
  exact (proj1 (proj2 (blocks_cover_each_register_once REGS 1 16 ltac:(lia)))).
Defined.

(** *** Reading the blocks *)

Lemma memory_answer_index (mem : Z -> Z) (start count i : Z) :
  0 <= i < count ->
  py_index (mem <$> seqZ start count) i = Some (mem (start + i)).
Proof.
  intros Hi. unfold py_index. destruct (Z.ltb_spec i 0); [lia |].
  rewrite list_lookup_fmap, lookup_seqZ_lt by lia.
  simpl. rewrite Z2Nat.id by lia. reflexivity.
Qed.

Lemma decode_block_memory (mem : Z -> Z) (start count : Z) (block : list Reg) :
  Forall (fun r => 0 <= reg_addr r - start < count) block ->
  forall out : gmap string Q,
    decode_block (mem <$> seqZ start count) start block out
    = Some (fold_left
              (fun o r => <[reg_name r := decode_reg r (mem (reg_addr r))]> o)
              block out).
Proof.
  induction 1 as [| r rest Hr _ IH]; intros out; simpl; [reflexivity |].
  rewrite memory_answer_index by exact Hr.
  replace (start + (reg_addr r - start)) with (reg_addr r) by lia.
  apply IH.
Qed.

Lemma read_blocks_memory (mem : Z -> Z) (blocks : list (Z * list Reg)) :
  Forall (fun b => Forall (fun r => 0 <= reg_addr r - fst b < block_count (fst b) (snd b))
                     (snd b)) blocks ->
  forall out : gmap string Q,
    read_blocks (memory_bus mem) blocks out
    = Some (fold_left
              (fun o r => <[reg_name r := decode_reg r (mem (reg_addr r))]> o)
              (concat (snd <$> blocks)) out).
Proof.
  induction 1 as [| [s block] rest Hb _ IH]; intros out; simpl; [reflexivity |].
  unfold memory_bus at 1. cbn [fst snd] in Hb.
  rewrite (decode_block_memory mem s _ block Hb), IH, fold_left_app.
  reflexivity.
Qed.

(** The last write of a name wins; with distinct names every register keeps
    its own value. *)
Lemma fold_insert_lookup (f : Reg -> Q) (l : list Reg) :
  NoDup (reg_name <$> l) ->
  forall (out : gmap string Q) (r : Reg),
    r ∈ l ->
    fold_left (fun o x => <[reg_name x := f x]> o) l out !! reg_name r = Some (f r).
Proof.
  induction l as [| x rest IH]; intros Hnd out r Hin; [inversion Hin |].
  rewrite fmap_cons in Hnd. apply NoDup_cons in Hnd as [Hx Hnd].
  simpl. apply elem_of_cons in Hin as [-> | Hin].
  - assert (G : forall (l' : list Reg) (o : gmap string Q),
                reg_name x ∉ reg_name <$> l' ->
                fold_left (fun o y => <[reg_name y := f y]> o) l' o !! reg_name x
                = o !! reg_name x).
    { induction l' as [| y l' IH']; intros o Hy; simpl; [reflexivity |].
      rewrite fmap_cons in Hy. apply not_elem_of_cons in Hy as [Hne Hy].
      rewrite IH' by exact Hy. apply lookup_insert_ne. congruence. }
    rewrite G by exact Hx. apply lookup_insert_eq.
  - apply IH; assumption.
Qed.

Lemma fold_insert_dom (f : Reg -> Q) (l : list Reg) :
  forall out : gmap string Q,
    dom (fold_left (fun o x => <[reg_name x := f x]> o) l out)
    = dom out ∪ list_to_set (reg_name <$> l).
Proof.
  induction l as [| x rest IH]; intros out; simpl.
  - set_solver.
  - rewrite IH, dom_insert_L. set_solver.
Qed.

Lemma REGS_names_distinct : NoDup (reg_name <$> REGS).
Proof. apply (bool_decide_unpack _). vm_compute. exact I. Qed.

(** X3. Read from a device that answers every bulk request from its
    register file, [read_regs] succeeds and gives every register of [REGS]
    the value of its own address, scaled, the signed names decoded with
    [_to_signed16]: the block reads return what reading each register alone
    would return, and nothing else. *)
Theorem read_regs_reads_each_register (mem : Z -> Z) :
  exists out : gmap string Q,
    read_regs (memory_bus mem) = Some out
    /\ (forall r : Reg, r ∈ REGS ->
          out !! reg_name r = Some (decode_reg r (mem (reg_addr r))))
    /\ dom out = list_to_set (reg_name <$> REGS).
Proof.
  destruct (blocks_of_spec REGS 1 16 ltac:(lia)) as [Hok Hcat].
  destruct (sorted_by_addr_spec REGS) as [_ Hperm].
  eexists. split; [| split].
  - unfold read_regs, _blocks. apply read_blocks_memory.
    eapply Forall_impl; [exact Hok |].
    intros [s cur] (first & Hhd & Hfirst & Hall & Hcnt). cbn [fst snd] in *.
    unfold block_count. eapply Forall_impl; [exact Hall |]. cbv beta.
    intros r Hr. lia.
  - intros r Hr. rewrite Hcat. apply fold_insert_lookup.
    + rewrite Hperm. exact REGS_names_distinct.
    + rewrite Hperm. exact Hr.
  - rewrite Hcat, fold_insert_dom, dom_empty_L, Hperm.
    apply leibniz_equiv. apply union_empty_l.
Qed.




End FieldBusFacts.

(** ** Rounding *)

Module RoundFacts.
Import Analyzer.




End RoundFacts.

(** ** Acquisition cycle *)

Module AcquisitionFacts.
Import Acquisition.

Lemma clamp01_range (v : Q) : (0 <= clamp01 v <= 1)%Q.
Proof.
  unfold clamp01, py_max2, py_min2.
  destruct (Qltb v 1) eqn:E1.
  - apply Qltb_lt in E1. destruct (Qltb 0 v) eqn:E2.
    + apply Qltb_lt in E2. lra.
    + lra.
  - destruct (Qltb 0 1) eqn:E2; [lra | lra].
Qed.

(** X5. After the derivation of [poll_loop], a power factor that had to be
    estimated lies between 0 and 1; a positive measured one is kept as it is;
    [grid_a] is always set, to 0 when the grid voltage is missing or zero
    (no division by zero); the measured powers and the timestamp are not
    touched. *)
Theorem derived_fields_are_safe (s : Sample) :
  let d := derive_fields s in
  (forall p, load_pf d = Some p ->
     (0 <= p <= 1)%Q \/ (load_pf s = Some p /\ (0 < p)%Q))
  /\ (forall pf, load_pf s = Some pf -> (0 < pf)%Q -> load_pf d = Some pf)
  /\ (float_or0 (load_va s) == 0 ->
      (forall pf, load_pf s = Some pf -> (pf <= 0)%Q) -> load_pf d = None)%Q
  /\ (exists a, grid_a d = Some a
                /\ (float_or0 (grid_v s) == 0 -> a = 0)%Q
                /\ (~ float_or0 (grid_v s) == 0 ->
                    a = float_or0 (grid_w s) / float_or0 (grid_v s))%Q)
  /\ timestamp d = timestamp s
  /\ (pv_w d, battery_w d, battery_v d, grid_w d, load_w d)
     = (pv_w s, battery_w s, battery_v s, grid_w s, load_w s).
Proof.
  intros d. subst d. unfold derive_fields. cbn [load_pf grid_a timestamp pv_w
    battery_w battery_v grid_w load_w].
  assert (Hest : forall lw lva p, estimated_pf lw lva = Some p -> (0 <= p <= 1)%Q).
  { intros lw lva p. unfold estimated_pf.
    destruct (Qltb _ _); [| discriminate]. intros [= <-]. apply clamp01_range. }
  split; [| split; [| split; [| split; [| split; reflexivity]]]].
  - intros p. destruct (load_pf s) as [pf |].
    + destruct (Qle_bool pf 0) eqn:E.
      * intros H. left. exact (Hest _ _ _ H).
      * intros [= <-]. right. split; [reflexivity |].
        apply Qnot_le_lt. intros Hle. apply Qle_bool_iff in Hle. congruence.
    + intros H. left. exact (Hest _ _ _ H).
  - intros pf -> Hpos.
    destruct (Qle_bool pf 0) eqn:E; [| reflexivity].
    apply Qle_bool_iff in E. lra.
  - intros Hva Hpf.
    assert (Hnone : estimated_pf (float_or0 (load_w s)) (float_or0 (load_va s)) = None).
    { unfold estimated_pf.
      destruct (Qltb (1 # 1000000) (Qabs (float_or0 (load_va s)))) eqn:E;
        [| reflexivity].
      apply Qltb_lt in E. rewrite Hva in E. vm_compute in E. discriminate. }
    destruct (load_pf s) as [pf |]; [| exact Hnone].
    specialize (Hpf pf eq_refl). apply Qle_bool_iff in Hpf. rewrite Hpf. exact Hnone.
  - eexists. split; [reflexivity |]. split.
    + intros H. apply Qeq_bool_iff in H. rewrite H. reflexivity.
    + intros H. destruct (Qeq_bool (float_or0 (grid_v s)) 0) eqn:E; [| reflexivity].
      apply Qeq_bool_iff in E. contradiction.
Qed.


(** At 51 V between 44 V and 58 V the state of charge is 50 %. *)
Example soc_at_mid_voltage : soc_pct 58 44 (Some 51%Q) = Some (500 # 10).
Proof. vm_compute. reflexivity. Qed.

End AcquisitionFacts.

(** ** Relay: hysteresis, line level, configuration requests *)

Module RelayApiFacts.
Import Relay RelayApi.

(** X7. The automatic step only ever switches ON at or under [on_v] and OFF
    at or above [off_v], never re-applies the state it already tracks, does
    nothing for a voltage strictly inside the band or when the controller is
    disabled, and whenever it applies nothing it changes nothing. *)
Theorem auto_step_respects_thresholds
    (cfg : RelayCfg) (v now t_apply : Q) (w : World) :
  let r := relay_auto_step cfg (Some v) now t_apply w in
  (snd r = Some true ->
     (v <= on_v cfg)%Q /\ RELAY_STATE (snd w) <> Some true
     /\ RELAY_STATE (snd (fst r)) = Some true)
  /\ (snd r = Some false ->
     (off_v cfg <= v)%Q /\ RELAY_STATE (snd w) <> Some false
     /\ RELAY_STATE (snd (fst r)) = Some false)
  /\ (snd r = None -> fst r = w)
  /\ ((on_v cfg < v)%Q -> (v < off_v cfg)%Q -> r = (w, None))
  /\ (enabled cfg = false -> r = (w, None)).
Proof.
  intros r. subst r. unfold relay_auto_step.
  destruct (enabled cfg); simpl.
  2:{ repeat split; try discriminate; reflexivity. }
  destruct (RELAY_STATE (snd w)) as [c |] eqn:Hcur.
  - destruct (Qle_bool v (on_v cfg)) eqn:Hon;
      destruct (Qgeb v (off_v cfg)) eqn:Hoff;
      destruct c; simpl;
      destruct (Qgeb (now - RELAY_LAST_TOGGLE (snd w))
                  (inject_Z (Z.max 0 (min_toggle_sec cfg)))); simpl;
      try apply Qle_bool_iff in Hon; try apply Qgeb_ge in Hoff;
      try (apply not_true_iff_false in Hon; rewrite Qle_bool_iff in Hon);
      try (apply not_true_iff_false in Hoff; unfold Qgeb in Hoff;
           rewrite Qle_bool_iff in Hoff);
      repeat split; try discriminate; try reflexivity; try assumption;
      try (intros; lra).
  - destruct (Qle_bool v (on_v cfg)) eqn:Hon;
      [| destruct (Qgeb v (off_v cfg)) eqn:Hoff]; simpl;
      try destruct (Qgeb (now - RELAY_LAST_TOGGLE (snd w))
                      (inject_Z (Z.max 0 (min_toggle_sec cfg)))); simpl;
      try apply Qle_bool_iff in Hon; try apply Qgeb_ge in Hoff;
      try (apply not_true_iff_false in Hon; rewrite Qle_bool_iff in Hon);
      try (apply not_true_iff_false in Hoff; unfold Qgeb in Hoff;
           rewrite Qle_bool_iff in Hoff);
      repeat split; try discriminate; try reflexivity; try assumption;
      try (intros; lra).
Qed.

Lemma auto_step_applied (cfg : RelayCfg) (v now t_apply : Q) (w : World) (b : bool) :
  snd (relay_auto_step cfg (Some v) now t_apply w) = Some b ->
  enabled cfg = true
  /\ fst (relay_auto_step cfg (Some v) now t_apply w) = relay_apply cfg b t_apply w
  /\ (if b then (v <= on_v cfg)%Q else (off_v cfg <= v)%Q).
Proof.
  unfold relay_auto_step.
  destruct (enabled cfg); simpl; [| discriminate].
  destruct (RELAY_STATE (snd w)) as [c |].
  - destruct (Qle_bool v (on_v cfg)) eqn:Hon;
      destruct (Qgeb v (off_v cfg)) eqn:Hoff;
      destruct c; simpl;
      destruct (Qgeb (now - RELAY_LAST_TOGGLE (snd w))
                  (inject_Z (Z.max 0 (min_toggle_sec cfg)))); simpl;
      try discriminate; intros [= <-];
      try apply Qle_bool_iff in Hon; try apply Qgeb_ge in Hoff;
      repeat split; assumption.
  - destruct (Qle_bool v (on_v cfg)) eqn:Hon;
      [| destruct (Qgeb v (off_v cfg)) eqn:Hoff]; simpl;
      try destruct (Qgeb (now - RELAY_LAST_TOGGLE (snd w))
                      (inject_Z (Z.max 0 (min_toggle_sec cfg)))); simpl;
      try discriminate; intros [= <-];
      try apply Qle_bool_iff in Hon; try apply Qgeb_ge in Hoff;
      repeat split; assumption.
Qed.

(** X8. With [on_v < off_v], a transition is never reversed by the voltage
    that caused it: the step that follows an applied transition, fed the same
    voltage, applies nothing, however much time has passed. *)
Theorem transition_not_reversed_by_same_voltage
    (cfg : RelayCfg) (v now t_apply now' t_apply' : Q) (w : World) (b : bool)
    (Hband : (on_v cfg < off_v cfg)%Q)
    (Happlied : snd (relay_auto_step cfg (Some v) now t_apply w) = Some b) :
  relay_auto_step cfg (Some v) now' t_apply'
    (fst (relay_auto_step cfg (Some v) now t_apply w))
  = (fst (relay_auto_step cfg (Some v) now t_apply w), None).
Proof.
  destruct (auto_step_applied cfg v now t_apply w b Happlied) as (Hen & -> & Hdir).
  unfold relay_auto_step at 1. rewrite Hen. simpl.
  destruct b.
  - assert (Hoff : Qgeb v (off_v cfg) = false).
    { apply not_true_iff_false. unfold Qgeb. rewrite Qle_bool_iff. lra. }
    rewrite Hoff. reflexivity.
  - assert (Hon : Qle_bool v (on_v cfg) = false).
    { apply not_true_iff_false. rewrite Qle_bool_iff. lra. }
    rewrite Hon. reflexivity.
Qed.

Lemma transition_not_reversed_by_same_voltage_witness :
  relay_auto_step default_cfg (Some 47%Q) 100 100.5
    (fst (relay_auto_step default_cfg (Some 47%Q) 20 20.5 (rpi_gpio, initial_globals)))
  = (fst (relay_auto_step default_cfg (Some 47%Q) 20 20.5 (rpi_gpio, initial_globals)),
     None).
Proof.
  apply (transition_not_reversed_by_same_voltage default_cfg 47 20 20.5 100 100.5
           (rpi_gpio, initial_globals) true).
  - vm_compute. reflexivity.
  - vm_compute. reflexivity.
Defined.

(** X9. With thresholds the wrong way round ([off_v <= on_v]) a voltage
    between them makes the controller flip the relay at every step it is
    allowed to: from a known state, once the anti-chatter delay has passed,
    the step applies the opposite state. *)
Theorem inverted_band_flips_every_step
    (cfg : RelayCfg) (v now t_apply : Q) (w : World) (c : bool)
    (Hen : enabled cfg = true)
    (Hstate : RELAY_STATE (snd w) = Some c)
    (Hlow : (off_v cfg <= v)%Q) (Hhigh : (v <= on_v cfg)%Q)
    (Hgap : (inject_Z (Z.max 0 (min_toggle_sec cfg))
             <= now - RELAY_LAST_TOGGLE (snd w))%Q) :
  relay_auto_step cfg (Some v) now t_apply w
  = (relay_apply cfg (negb c) t_apply w, Some (negb c)).
Proof.
  unfold relay_auto_step. rewrite Hen, Hstate. simpl.
  apply Qle_bool_iff in Hhigh. apply Qgeb_ge in Hlow. apply Qgeb_ge in Hgap.
  rewrite Hhigh, Hlow. destruct c; simpl; rewrite Hgap; reflexivity.
Qed.

Lemma inverted_band_flips_every_step_witness :
  relay_auto_step (merge_relay (only_on_v 50) default_cfg) (Some 49.5%Q) 30 30.5
    (rpi_gpio, {| RELAY_STATE := Some true; RELAY_LAST_TOGGLE := 20 |})
  = (relay_apply (merge_relay (only_on_v 50) default_cfg) false 30.5
       (rpi_gpio, {| RELAY_STATE := Some true; RELAY_LAST_TOGGLE := 20 |}),
     Some false).
Proof.
  apply (inverted_band_flips_every_step (merge_relay (only_on_v 50) default_cfg)
           49.5 30 30.5
           (rpi_gpio, {| RELAY_STATE := Some true; RELAY_LAST_TOGGLE := 20 |}) true);
    vm_compute; solve [reflexivity | discriminate].
Defined.


(** X11. Line level and tracked state agree. On a working GPIO backend in
    mode "gpio", after [relay_apply] the line is high exactly when the
    commanded state equals [active_high], the level read back is the one
    written, and the state [relay_state()] would infer from that level is the
    commanded one; after [relay_setup] the inferred state is OFF. *)
Theorem line_level_encodes_state
    (cfg : RelayCfg) (b : bool) (t : Q) (w : World)
    (Hbackend : GPIO_BACKEND (fst w) <> None)
    (Hmode : mode_gpio cfg = true)
    (Hfault : gpio_fault (fst w) = false) :
  level (fst (relay_apply cfg b t w)) = Bool.eqb b (active_high cfg)
  /\ (exists lv,
        _gpio_read (gpio_pin cfg) (fst (relay_apply cfg b t w)) = Some lv
        /\ infer_state (active_high cfg) lv = b)
  /\ (exists lv,
        _gpio_read (gpio_pin cfg) (fst (relay_setup cfg t w)) = Some lv
        /\ infer_state (active_high cfg) lv = false).
Proof.
  unfold relay_apply, relay_setup, _gpio_write, _gpio_setup_output, _gpio_read,
    infer_state.
  destruct w as [g st]. cbn [fst snd] in *.
  destruct (GPIO_BACKEND g) as [[|] |] eqn:Hb; [| | congruence];
    rewrite Hmode; cbn [negb];
    destruct (lgpio_h g) eqn:Hh; rewrite ?Hfault; cbn;
    rewrite ?Hb, ?Hfault, ?Hh; cbn;
    destruct (active_high cfg), b; cbn;
    repeat split; eexists; split; reflexivity.
Qed.

Lemma line_level_encodes_state_witness :
  level (fst (relay_apply default_cfg true 3 (rpi_gpio, initial_globals))) = true.
Proof.
  apply (line_level_encodes_state default_cfg true 3 (rpi_gpio, initial_globals));
    [discriminate | reflexivity | reflexivity].
Defined.

(** With the relay enabled and the tracked state unknown, [relay_state()]
    reports the state inferred from the line. *)
Example relay_state_inferred_from_line :
  relay_state default_cfg (rpi_gpio, initial_globals) = (Some true, Some 1).
Proof. reflexivity. Qed.

End RelayApiFacts.

(** ** Store maintenance *)

Module StoreOpsFacts.
Import Store StoreOps.

Lemma size_older_plus_kept (cutoff : Z) (tbl : gmap Z Sample) :
  (size (older_than cutoff tbl) + size (delete_older cutoff tbl))%nat = size tbl.
Proof.
  unfold older_than, delete_older.
  rewrite <- map_size_disj_union by apply map_disjoint_filter_complement.
  rewrite map_filter_union_complement. reflexivity.
Qed.

Lemma delete_older_lookup (cutoff ts : Z) (tbl : gmap Z Sample) :
  delete_older cutoff tbl !! ts = if decide (ts < cutoff) then None else tbl !! ts.
Proof.
  unfold delete_older. destruct (decide (ts < cutoff)) as [Hlt | Hge].
  - apply map_lookup_filter_None. destruct (tbl !! ts) as [x |] eqn:E; [| left; reflexivity].
    right. intros y _ Hn. exact (Hn Hlt).
  - destruct (tbl !! ts) as [x |] eqn:E.
    + apply map_lookup_filter_Some. split; [exact E | exact Hge].
    + apply map_lookup_filter_None. left. exact E.
Qed.

(** X12. A dry run of [_archive_compute_and_apply] changes nothing and
    announces what the real run does: the same summary is returned, the real
    run removes exactly [minutes_to_delete] sample rows, namely those older
    than the cutoff, and leaves every other sample as it was. *)
Theorem dry_run_announces_the_real_run (cutoff : Z) (d : DB) :
  let dry := _archive_compute_and_apply cutoff false d in
  let real := _archive_compute_and_apply cutoff true d in
  snd dry = d
  /\ fst dry = fst real
  /\ Z.of_nat (size (samples d))
     = Z.of_nat (size (samples (snd real))) + minutes_to_delete (fst real)
  /\ (forall ts, samples (snd real) !! ts
                 = if decide (ts < cutoff) then None else samples d !! ts)
  /\ (minutes_to_delete (fst real) = 0 <-> days_to_archive (fst real) = 0).
Proof.
  intros dry real. subst dry real. unfold _archive_compute_and_apply.
  cbn [andb]. split; [reflexivity |].
  destruct (bool_decide (archive_query cutoff (samples d) = [])) eqn:E; cbn [negb fst snd].
  - apply bool_decide_eq_true in E.
    pose proof (proj1 (StoreFacts.archive_query_nil cutoff (samples d)) E) as Hold.
    rewrite E, Hold, map_size_empty. cbn.
    repeat split; try lia.
    intros ts. rewrite <- (StoreFacts.delete_older_nothing_old cutoff (samples d) Hold) at 1.
    apply delete_older_lookup.
  - apply bool_decide_eq_false in E. cbn [samples minutes_to_delete days_to_archive].
    split; [reflexivity |]. split.
    + rewrite <- (size_older_plus_kept cutoff (samples d)). lia.
    + split; [intros ts; exact (delete_older_lookup cutoff ts (samples d)) |].
      split; intros H.
      * exfalso. apply E. apply StoreFacts.archive_query_nil.
        apply map_size_empty_iff. lia.
      * exfalso. apply E. destruct (archive_query cutoff (samples d)); [reflexivity |].
        simpl in H. lia.
Qed.

End StoreOpsFacts.
